(** * networkapp front end: a shallow embedding of the client-side handlers

    The repository's sources are the React components of the front end:
    the command executor (two versions of [CommandExecutor.js]), the
    interactive terminal view and the AI chat.  This development embeds
    the handlers of those components as Rocq functions over explicit
    component state and proves the properties the specification states
    about them.

    Conventions of the embedding:
    - a JS string is the list of its UTF-16 code units ([jsstring]);
    - a value decoded by [JSON.parse] is a [jsval]; numbers are kept as
      integers, which is all the protocol uses;
    - a plain JS object used as a dictionary is a [gmap] of its own
      properties under the members it inherits from [Object.prototype];
    - React state is a record; a handler is a function from state to
      state; what a handler does to the outside world (toasts, console
      output, HTTP requests, websocket frames, terminal writes) is
      appended to a log kept in the state;
    - the part of an [async] function that runs after an [await] is a
      function of its own, applied when the awaited request settles. *)

From Stdlib Require Import ZArith NArith List String Ascii Lia DecimalString.
From stdpp Require Import base gmap list strings.

Local Set Warnings "-register-all".
Local Open Scope N_scope.

(** ** JavaScript strings and values *)

Module JS.

Abbreviation jsstring := (list N).

(** A string literal of the source, as code units. *)
Definition str (s : string) : jsstring :=
  N_of_ascii <$> list_ascii_of_string s.

Definition LF : N := 10.
Definition CR : N := 13.

(** [LineTerminator] of ECMAScript: the characters [.] does not match. *)
Definition is_line_terminator (c : N) : bool :=
  (c =? 10) || (c =? 13) || (c =? 0x2028) || (c =? 0x2029).

(** [WhiteSpace] and [LineTerminator]: what [\s] matches and what
    [String.prototype.trim] removes. *)
Definition is_space (c : N) : bool :=
  (c =? 9) || (c =? 10) || (c =? 11) || (c =? 12) || (c =? 13) || (c =? 32)
  || (c =? 0xA0) || (c =? 0x1680) || ((0x2000 <=? c) && (c <=? 0x200A))
  || (c =? 0x2028) || (c =? 0x2029) || (c =? 0x202F) || (c =? 0x205F)
  || (c =? 0x3000) || (c =? 0xFEFF).

Fixpoint trimStart (s : jsstring) : jsstring :=
  match s with
  | c :: s' => if is_space c then trimStart s' else s
  | [] => []
  end.

Definition trimEnd (s : jsstring) : jsstring :=
  reverse (trimStart (reverse s)).

Definition trim (s : jsstring) : jsstring := trimEnd (trimStart s).

(** [s.split('\n')]. *)
Fixpoint split_lines (s : jsstring) : list jsstring :=
  match s with
  | [] => [[]]
  | c :: s' =>
      if c =? LF then [] :: split_lines s'
      else match split_lines s' with
           | l :: ls => (c :: l) :: ls
           | [] => [[c]]
           end
  end.

(** [lines.join('\n')]. *)
Fixpoint join_lines (ls : list jsstring) : jsstring :=
  match ls with
  | [] => []
  | [l] => l
  | l :: ls' => l ++ LF :: join_lines ls'
  end.

(** [s.startsWith(p)], and the rest of [s] after [p]. *)
Fixpoint strip_prefix (p s : jsstring) : option jsstring :=
  match p, s with
  | [], _ => Some s
  | a :: p', b :: s' => if a =? b then strip_prefix p' s' else None
  | _ :: _, [] => None
  end.

Definition startsWith (p s : jsstring) : bool :=
  match strip_prefix p s with Some _ => true | None => false end.

(** ASCII letters only: a regular expression with the [i] flag and
    without [u] never lets a character above 127 match one below. *)
Definition to_lower (c : N) : N :=
  if (65 <=? c) && (c <=? 90) then c + 32 else c.

(** [strip_prefix] for a lower-case pattern under the [i] flag. *)
Fixpoint strip_prefix_ci (p s : jsstring) : option jsstring :=
  match p, s with
  | [], _ => Some s
  | a :: p', b :: s' => if a =? to_lower b then strip_prefix_ci p' s' else None
  | _ :: _, [] => None
  end.

(** Values as [JSON.parse] builds them, and [undefined] for what is
    absent.  An object keeps its members in source order. *)
Inductive jsval :=
| JUndefined
| JNull
| JBool (b : bool)
| JNum (n : Z)
| JStr (s : jsstring)
| JArr (items : list jsval)
| JObj (members : list (jsstring * jsval)).

(** Truthiness. *)
Definition truthy (v : jsval) : bool :=
  match v with
  | JUndefined | JNull => false
  | JBool b => b
  | JNum n => negb (n =? 0)%Z
  | JStr s => match s with [] => false | _ => true end
  | JArr _ | JObj _ => true
  end.

(** The decimal digits of an integer, which is how JS prints a number
    that is an integer below [2^53] in size. *)
Definition Number_toString (n : Z) : jsstring :=
  str (NilZero.string_of_int (Z.to_int n)).

(** [String(v)], which is also what a template literal and a property
    key make of [v]. *)
Fixpoint ToString (v : jsval) : jsstring :=
  match v with
  | JUndefined => str "undefined"
  | JNull => str "null"
  | JBool true => str "true"
  | JBool false => str "false"
  | JNum n => Number_toString n
  | JStr s => s
  | JArr items =>
      (fix join (l : list jsval) : jsstring :=
         match l with
         | [] => []
         | [v] => match v with JUndefined | JNull => [] | _ => ToString v end
         | v :: l' =>
             match v with JUndefined | JNull => [] | _ => ToString v end
             ++ 44 :: join l'
         end) items
  | JObj _ => str "[object Object]"
  end.

(** Own member [k] of a parsed object: with a key repeated in the JSON
    text the last member wins. *)
Fixpoint own_member (k : jsstring) (members : list (jsstring * jsval))
  : option jsval :=
  match members with
  | [] => None
  | (k', v) :: rest =>
      match own_member k rest with
      | Some v' => Some v'
      | None => if bool_decide (k' = k) then Some v else None
      end
  end.

(** How an expression completes: normally, or by throwing. *)
Inductive completion (A : Type) :=
| Normal (a : A)
| Throw (error : jsstring).
Arguments Normal {A} a.
Arguments Throw {A} error.

(** [data.k] where [data] is known not to be [null] or [undefined], for
    the member names the handlers read (none of them is a built-in
    property of a string, a number, a boolean or an array). *)
Definition member (data : jsval) (k : string) : jsval :=
  match data with
  | JObj members =>
      match own_member (str k) members with
      | Some v => v
      | None => JUndefined
      end
  | _ => JUndefined
  end.

(** [data.k] in general: reading a member of [null] or [undefined]
    throws a [TypeError]. *)
Definition get (data : jsval) (k : string) : completion jsval :=
  match data with
  | JUndefined | JNull => Throw (str "TypeError")
  | _ => Normal (member data k)
  end.

(** [v === 'literal']. *)
Definition is_str (v : jsval) (lit : string) : bool :=
  match v with
  | JStr s => bool_decide (s = str lit)
  | _ => false
  end.

(** [typeof v === 'string']. *)
Definition typeof_string (v : jsval) : bool :=
  match v with JStr _ => true | _ => false end.

End JS.
Import JS.

(** ** Plain objects *)

Module Obj.

(** The members every plain object inherits from [Object.prototype]:
    functions, and the accessor [__proto__]. *)
Definition prototype_names : list jsstring :=
  [str "constructor"; str "__defineGetter__"; str "__defineSetter__";
   str "hasOwnProperty"; str "__lookupGetter__"; str "__lookupSetter__";
   str "isPrototypeOf"; str "propertyIsEnumerable"; str "toString";
   str "valueOf"; str "__proto__"; str "toLocaleString"].

Definition inherited (k : jsstring) : bool :=
  bool_decide (k ∈ prototype_names).

(** What [o[k]] reads: the value of an own property, an inherited
    member (a function, or the prototype itself for [__proto__]), or
    [undefined]. *)
Inductive read (V : Type) :=
| Own (v : V)
| Inherited
| Undefined.
Arguments Own {V} v.
Arguments Inherited {V}.
Arguments Undefined {V}.

(** [o[k]]. *)
Definition get {V} (o : gmap jsstring V) (k : jsstring) : read V :=
  match o !! k with
  | Some v => Own v
  | None => if inherited k then Inherited else Undefined
  end.

(** [k in o]. *)
Definition has {V} (o : gmap jsstring V) (k : jsstring) : bool :=
  bool_decide (is_Some (o !! k)) || inherited k.

(** [o[k] = v] for a primitive [v]: an assignment to [__proto__] goes to
    the inherited setter, which ignores a primitive, unless the object
    has a property of that name of its own. *)
Definition set {V} (o : gmap jsstring V) (k : jsstring) (v : V)
  : gmap jsstring V :=
  if bool_decide (k = str "__proto__")
     && negb (bool_decide (is_Some (o !! k)))
  then o
  else <[k := v]> o.

(** Truthiness of what was read, given that of an own value: every
    inherited member is truthy. *)
Definition is_truthy {V} (own : V -> bool) (r : read V) : bool :=
  match r with
  | Own v => own v
  | Inherited => true
  | Undefined => false
  end.

End Obj.

(** ** The interactive terminal view ([TerminalView]) *)

Module TerminalView.

(** [WebSocket.readyState]. *)
Inductive ready_state := CONNECTING | OPEN | CLOSING | CLOSED.

Global Instance ready_state_eq_dec : EqDecision ready_state.
Proof. solve_decision. Defined.

(** What arrives in [event.data]: text, or a binary frame (a [Blob] or
    an [ArrayBuffer]) with its bytes. *)
Inductive ws_data :=
| WsText (s : jsstring)
| WsBinary (bytes : list N).

(** How [fitAddon.fit()] ends: the terminal has the given size
    afterwards (its old size when nothing had to change), or it throws. *)
Inductive fit_outcome :=
| FitOk (cols rows : Z)
| FitThrows.

(** The terminal, its socket and what was done to them.
    [written] lists the arguments of [term.write] in call order ([writeln]
    being [write] of the text and a line break); [sent] lists the objects
    handed to [JSON.stringify] for [ws.send], in call order. *)
Record state := {
  readyState : ready_state;
  cols : Z;
  rows : Z;
  written : list jsstring;
  sent : list jsval;
  warnings : nat
}.

Definition ws_send (payload : jsval) (st : state) : state :=
  {| readyState := readyState st; cols := cols st; rows := rows st;
     written := written st; sent := sent st ++ [payload];
     warnings := warnings st |}.

Definition term_write (s : jsstring) (st : state) : state :=
  {| readyState := readyState st; cols := cols st; rows := rows st;
     written := written st ++ [s]; sent := sent st;
     warnings := warnings st |}.

Definition term_writeln (s : jsstring) (st : state) : state :=
  term_write (s ++ [CR; LF]) st.

Definition term_resize (c r : Z) (st : state) : state :=
  {| readyState := readyState st; cols := c; rows := r;
     written := written st; sent := sent st; warnings := warnings st |}.

Definition console_warn (st : state) : state :=
  {| readyState := readyState st; cols := cols st; rows := rows st;
     written := written st; sent := sent st;
     warnings := S (warnings st) |}.

Definition set_readyState (r : ready_state) (st : state) : state :=
  {| readyState := r; cols := cols st; rows := rows st;
     written := written st; sent := sent st; warnings := warnings st |}.

(** [{ type: 'resize', cols, rows }] and [{ type: 'input', data }]. *)
Definition resize_message (c r : Z) : jsval :=
  JObj [(str "type", JStr (str "resize"));
        (str "cols", JNum c); (str "rows", JNum r)].

Definition input_message (data : jsstring) : jsval :=
  JObj [(str "type", JStr (str "input")); (str "data", JStr data)].

(** [trySendResize], with the outcome of its call of [fit]. *)
Definition trySendResize (fit : fit_outcome) (st : state) : state :=
  match fit with
  | FitThrows => console_warn st
  | FitOk c r =>
      let st := term_resize c r st in
      if bool_decide (readyState st = OPEN)
      then ws_send (resize_message (cols st) (rows st)) st
      else st
  end.

(** [refitTerminal], once the terminal exists; its [catch] is empty. *)
Definition refitTerminal (fit : fit_outcome) (st : state) : state :=
  match fit with
  | FitThrows => st
  | FitOk c r =>
      let st := term_resize c r st in
      if bool_decide (readyState st = OPEN)
      then ws_send (resize_message (cols st) (rows st)) st
      else st
  end.

(** [ws.onmessage]. *)
Definition onmessage (data : ws_data) (st : state) : state :=
  term_write (match data with WsText s => s | WsBinary _ => [] end) st.

(** The [term.onData] handler. *)
Definition onData (data : jsstring) (st : state) : state :=
  if bool_decide (readyState st = OPEN)
  then ws_send (input_message data) st
  else st.

(** [sendCommandToTerminal]. *)
Definition sendCommandToTerminal (command : jsstring) (st : state) : state :=
  if bool_decide (readyState st = OPEN)
  then ws_send (input_message (command ++ [LF])) st
  else st.

(** [ws.onclose] and [ws.onerror]. *)
Definition onclose (st : state) : state :=
  term_writeln (CR :: LF :: str "[disconnected]") st.

Definition onerror (st : state) : state :=
  term_writeln (CR :: LF :: str "[error: terminal websocket failed]") st.

(** [waitForRender], lines 70-81, when its timer fires: with the
    terminal's element laid out it fits the terminal, and without it
    waits on; a failing fit is reported and tried again. *)
Definition waitForRender (rendered : bool) (fit : fit_outcome) (st : state)
  : state :=
  if rendered then
    match fit with
    | FitOk c r => term_resize c r st
    | FitThrows => console_warn st
    end
  else st.

(** Everything that can happen to a mounted terminal view. *)
Inductive event :=
| RenderTimer (rendered : bool) (fit : fit_outcome)
| WsOpen (fit : fit_outcome)
| WsMessage (data : ws_data)
| WsClose
| WsError
| TermData (data : jsstring)
| WindowResize (fit : fit_outcome)
| LayoutChange (fit : fit_outcome)
| ChatCommand (command : jsstring)
| Unmount.

(** What the browser has done to the socket by the time the handler of
    an event runs. *)
Definition browser (ev : event) (st : state) : state :=
  match ev with
  | WsOpen _ => set_readyState OPEN st
  | WsClose => set_readyState CLOSED st
  | _ => st
  end.

(** The handler the component runs for an event. *)
Definition handler (ev : event) (st : state) : state :=
  match ev with
  | RenderTimer rendered fit => waitForRender rendered fit st
  | WsOpen fit => trySendResize fit st
  | WsMessage data => onmessage data st
  | WsClose => onclose st
  | WsError => onerror st
  | TermData data => onData data st
  | WindowResize fit => trySendResize fit st
  | LayoutChange fit => refitTerminal fit st
  | ChatCommand command => sendCommandToTerminal command st
  | Unmount =>
      match readyState st with
      | CLOSED => st
      | _ => set_readyState CLOSING st
      end
  end.

Definition step (st : state) (ev : event) : state :=
  handler ev (browser ev st).

Definition run (evs : list event) (st : state) : state :=
  fold_left step evs st.

(** The view right after [initTerminal]: the socket is connecting. *)
Definition init (c r : Z) : state :=
  {| readyState := CONNECTING; cols := c; rows := r;
     written := []; sent := []; warnings := 0 |}.

(** What the terminal emulator has been fed so far. *)
Definition display (st : state) : jsstring := concat (written st).

(** The two shapes of a frame the terminal view sends. *)
Definition client_message (m : jsval) : Prop :=
  (exists data, m = input_message data)
  \/ (exists c r, m = resize_message c r).

(** What one handler run adds to [sent]: nothing, an input frame or a
    resize frame. *)
Inductive sends (st : state) (ev : event) (st' : state) : list jsval -> Prop :=
| sends_nothing : sends st ev st' []
| sends_keys data :
    readyState st = OPEN -> ev = TermData data ->
    sends st ev st' [input_message data]
| sends_command command :
    readyState st = OPEN -> ev = ChatCommand command ->
    sends st ev st' [input_message (command ++ [LF])]
| sends_resize :
    readyState st = OPEN -> readyState st' = OPEN ->
    sends st ev st' [resize_message (cols st') (rows st')].

End TerminalView.

(** ** The AI chat ([AIChat]): commands suggested in a reply *)

Module AIChat.

(** The fence of a code block: three backquotes. *)
Definition fence : jsstring := [96; 96; 96].

(** The lazy [([\s\S]*?)] followed by the closing fence: the shortest
    text up to a fence, if there is a fence at all. *)
Fixpoint lazy_until_fence (s : jsstring) : option jsstring :=
  match strip_prefix fence s with
  | Some _ => Some []
  | None =>
      match s with
      | [] => None
      | c :: s' => cons c <$> lazy_until_fence s'
      end
  end.

(** What follows the optional language tag: a line feed, the captured
    text and the closing fence. *)
Definition block_body (s : jsstring) : option jsstring :=
  match s with
  | c :: s' => if c =? LF then lazy_until_fence s' else None
  | [] => None
  end.

(** One attempt of the code block pattern at the start of [s]: the
    captured text and the length of the whole match.  The alternatives of
    the optional group are tried in the order of the pattern: [bash],
    [sh], then no tag. *)
Definition match_code_block (s : jsstring) : option (jsstring * nat) :=
  match strip_prefix fence s with
  | None => None
  | Some r =>
      match strip_prefix_ci (str "bash") r ≫= block_body with
      | Some body => Some (body, (3 + 4 + 1 + length body + 3)%nat)
      | None =>
          match strip_prefix_ci (str "sh") r ≫= block_body with
          | Some body => Some (body, (3 + 2 + 1 + length body + 3)%nat)
          | None =>
              match block_body r with
              | Some body => Some (body, (3 + 0 + 1 + length body + 3)%nat)
              | None => None
              end
          end
      end
  end.

(** The [while ((m = codeBlockRegex.exec(text)) !== null)] loop: the
    captures of the successive matches.  [skip] counts the characters
    still to pass before [lastIndex], where the next attempt starts. *)
Fixpoint exec_code_blocks (skip : nat) (s : jsstring) : list jsstring :=
  match s with
  | [] => []
  | _ :: s' =>
      match skip with
      | S k => exec_code_blocks k s'
      | O =>
          match match_code_block s with
          | Some (body, len) => body :: exec_code_blocks (pred len) s'
          | None => exec_code_blocks 0 s'
          end
      end
  end.

(** [ln.replace(/^\$\s*/, '')]. *)
Definition strip_prompt (ln : jsstring) : jsstring :=
  match ln with
  | 36 :: rest => trimStart rest
  | _ => ln
  end.

(** The commands of one captured block. *)
Definition block_commands (body : jsstring) : list jsstring :=
  List.filter
    (fun ln => match ln with [] => false | _ => negb (startsWith [35] ln) end)
    ((fun ln => trim (strip_prompt ln)) <$> split_lines body).

(** [(.+)$] of the prompt pattern: all that is left, which must be
    non-empty and free of line terminators. *)
Definition rest_of_line (s : jsstring) : option jsstring :=
  match s with
  | [] => None
  | _ => if forallb (fun c => negb (is_line_terminator c)) s
         then Some s else None
  end.

(** [\s*(.+)$]: the greedy [\s*] takes a white-space character when the
    rest of the pattern then still matches, and gives it back
    otherwise. *)
Fixpoint spaces_then_rest (s : jsstring) : option jsstring :=
  match s with
  | c :: s' =>
      if is_space c
      then match spaces_then_rest s' with
           | Some r => Some r
           | None => rest_of_line s
           end
      else rest_of_line s
  | [] => rest_of_line s
  end.

(** [ln.match(/^\$\s*(.+)$/)?.[1]]. *)
Definition prompt_match (ln : jsstring) : option jsstring :=
  match ln with
  | 36 :: rest => spaces_then_rest rest
  | _ => None
  end.

(** The de-duplication loop over [cmds], from the set [seen] and the
    list [unique] built so far. *)
Fixpoint dedup_loop (seen : gset jsstring) (unique : list jsstring)
    (cmds : list jsstring) : list jsstring :=
  match cmds with
  | [] => unique
  | c :: cmds' =>
      if bool_decide (c ∈ seen) then dedup_loop seen unique cmds'
      else dedup_loop ({[c]} ∪ seen) (unique ++ [c]) cmds'
  end.

(** The list [cmds] before de-duplication. *)
Definition collected_commands (text : jsstring) : list jsstring :=
  concat (block_commands <$> exec_code_blocks 0 text)
  ++ omap prompt_match (split_lines text).

Definition extractCommandsFromText (text : jsstring) : list jsstring :=
  match text with
  | [] => []
  | _ => take 20 (dedup_loop ∅ [] (collected_commands text))
  end.

End AIChat.

(** ** What both versions of the command executor share *)

Module Client.

(** An execution snapshot as the server returns it:
    [{id, status, commands, raw_outputs}]; [commands] and [raw_outputs]
    may be missing. *)
Record snapshot := {
  exec_id : jsstring;
  status : jsstring;
  commands : option (list jsstring);
  raw_outputs : option (list (jsstring * jsstring))
}.

(** [(execution && execution.commands) || []]. *)
Definition commands_of (e : option snapshot) : list jsstring :=
  match e with
  | Some e => default [] (commands e)
  | None => []
  end.

(** The HTTP requests of the component, under [API]:
    [GET /devices/<deviceId>/executions], [GET /executions/<id>],
    [POST /devices/<deviceId>/execute] with body [{ commands }] and
    [POST /ai/plan] with body [{ device_id, goal, assume_sudo }]. *)
Inductive request :=
| GetExecutions
| GetExecution (id : jsstring)
| PostExecute (commands : list jsstring)
| PostPlan (goal : jsstring) (assume_sudo : bool).

Inductive toast_kind := info | success | error.

(** What a handler does to the outside world. *)
Inductive effect :=
| Toast (kind : toast_kind) (message : jsstring)
| ConsoleLog (message : jsstring)
| ConsoleError (message : jsstring)
| Http (r : request).

(** A step of an AI plan: [{id, description, command}]. *)
Record plan_step := {
  step_id : jsstring;
  description : jsstring;
  command : jsstring
}.

(** The lines of the custom commands box that count as commands:
    [customCommands.split('\n').filter(cmd => cmd.trim())]. *)
Definition custom_lines (customCommands : jsstring) : list jsstring :=
  List.filter (fun cmd => match trim cmd with [] => false | _ => true end)
    (split_lines customCommands).

End Client.
Import Client.

(** ** The command executor, first version *)

Module Basic.

Record state := {
  selectedCommands : list jsstring;
  customCommands : jsstring;
  execution : option snapshot;
  isExecuting : bool;
  log : list effect
}.

Definition perform (e : effect) (st : state) : state :=
  {| selectedCommands := selectedCommands st;
     customCommands := customCommands st;
     execution := execution st; isExecuting := isExecuting st;
     log := log st ++ [e] |}.

Definition setIsExecuting (b : bool) (st : state) : state :=
  {| selectedCommands := selectedCommands st;
     customCommands := customCommands st;
     execution := execution st; isExecuting := b; log := log st |}.

Definition setExecution (e : option snapshot) (st : state) : state :=
  {| selectedCommands := selectedCommands st;
     customCommands := customCommands st;
     execution := e; isExecuting := isExecuting st; log := log st |}.

Definition loadExecutionHistory (st : state) : state :=
  perform (Http GetExecutions) st.

(** [handleWebSocketMessage(data)], lines 84-101. *)
Definition handleWebSocketMessage (data : jsval) (st : state)
  : completion state :=
  match get data "type" with
  | Throw e => Throw e
  | Normal type =>
      Normal
        (if is_str type "execution_started" then
           perform (Toast info (str "Command execution started")) st
         else if is_str type "execution_completed" then
           loadExecutionHistory
             (setIsExecuting false
                (perform (Toast success (str "Commands executed successfully"))
                   st))
         else if is_str type "execution_failed" then
           setIsExecuting false
             (perform
                (Toast error
                   (str "Execution failed: " ++ ToString (member data "error")))
                st)
         else
           perform (ConsoleLog (str "Unknown WebSocket message:")) st)
  end.

(** [handleExecuteCommands], up to its [await]. *)
Definition handleExecuteCommands (st : state) : state :=
  let allCommands := selectedCommands st ++ custom_lines (customCommands st) in
  match allCommands with
  | [] =>
      perform
        (Toast error (str "Please select or enter at least one command")) st
  | _ => perform (Http (PostExecute allCommands)) (setIsExecuting true st)
  end.

(** [handleExecuteCommands] once the request has settled: with the
    snapshot of the response, or with the failure. *)
Definition executeSettled (response : option snapshot) (st : state) : state :=
  match response with
  | Some e =>
      perform (Toast info (str "Commands are being executed..."))
        (setExecution (Some e) st)
  | None =>
      setIsExecuting false
        (perform (Toast error (str "Failed to start command execution"))
           (perform (ConsoleError (str "Error executing commands:")) st))
  end.

(** A click on Execute Commands: the button is [disabled={isExecuting}]. *)
Definition clickExecuteCommands (st : state) : state :=
  if isExecuting st then st else handleExecuteCommands st.

(** The state a socket message leaves behind: a handler that throws has
    changed nothing. *)
Definition after_message (data : jsval) (st : state) : state :=
  match handleWebSocketMessage data st with
  | Normal st' => st'
  | Throw _ => st
  end.

End Basic.
(** ** The command executor, second version (live outputs, AI runner) *)

Module Executor.

(** The [useState] cells the handlers below read or write, and the log. *)
Record state := {
  selectedCommands : list jsstring;
  customCommands : jsstring;
  execution : option snapshot;
  isExecuting : bool;
  liveOutputs : gmap jsstring jsstring;
  aiGoal : jsstring;
  aiAssumeSudo : bool;
  aiPlanning : bool;
  aiSteps : list plan_step;
  aiSelected : gmap jsstring bool;
  log : list effect
}.

Definition setSelectedCommands (v : list jsstring) (st : state) : state :=
  {| selectedCommands := v;
     customCommands := customCommands st;
     execution := execution st;
     isExecuting := isExecuting st;
     liveOutputs := liveOutputs st;
     aiGoal := aiGoal st;
     aiAssumeSudo := aiAssumeSudo st;
     aiPlanning := aiPlanning st;
     aiSteps := aiSteps st;
     aiSelected := aiSelected st;
     log := log st |}.

Definition setCustomCommands (v : jsstring) (st : state) : state :=
  {| selectedCommands := selectedCommands st;
     customCommands := v;
     execution := execution st;
     isExecuting := isExecuting st;
     liveOutputs := liveOutputs st;
     aiGoal := aiGoal st;
     aiAssumeSudo := aiAssumeSudo st;
     aiPlanning := aiPlanning st;
     aiSteps := aiSteps st;
     aiSelected := aiSelected st;
     log := log st |}.

Definition setExecution (v : option snapshot) (st : state) : state :=
  {| selectedCommands := selectedCommands st;
     customCommands := customCommands st;
     execution := v;
     isExecuting := isExecuting st;
     liveOutputs := liveOutputs st;
     aiGoal := aiGoal st;
     aiAssumeSudo := aiAssumeSudo st;
     aiPlanning := aiPlanning st;
     aiSteps := aiSteps st;
     aiSelected := aiSelected st;
     log := log st |}.

Definition setIsExecuting (v : bool) (st : state) : state :=
  {| selectedCommands := selectedCommands st;
     customCommands := customCommands st;
     execution := execution st;
     isExecuting := v;
     liveOutputs := liveOutputs st;
     aiGoal := aiGoal st;
     aiAssumeSudo := aiAssumeSudo st;
     aiPlanning := aiPlanning st;
     aiSteps := aiSteps st;
     aiSelected := aiSelected st;
     log := log st |}.

Definition setLiveOutputs (v : gmap jsstring jsstring) (st : state) : state :=
  {| selectedCommands := selectedCommands st;
     customCommands := customCommands st;
     execution := execution st;
     isExecuting := isExecuting st;
     liveOutputs := v;
     aiGoal := aiGoal st;
     aiAssumeSudo := aiAssumeSudo st;
     aiPlanning := aiPlanning st;
     aiSteps := aiSteps st;
     aiSelected := aiSelected st;
     log := log st |}.

Definition setAiGoal (v : jsstring) (st : state) : state :=
  {| selectedCommands := selectedCommands st;
     customCommands := customCommands st;
     execution := execution st;
     isExecuting := isExecuting st;
     liveOutputs := liveOutputs st;
     aiGoal := v;
     aiAssumeSudo := aiAssumeSudo st;
     aiPlanning := aiPlanning st;
     aiSteps := aiSteps st;
     aiSelected := aiSelected st;
     log := log st |}.

Definition setAiAssumeSudo (v : bool) (st : state) : state :=
  {| selectedCommands := selectedCommands st;
     customCommands := customCommands st;
     execution := execution st;
     isExecuting := isExecuting st;
     liveOutputs := liveOutputs st;
     aiGoal := aiGoal st;
     aiAssumeSudo := v;
     aiPlanning := aiPlanning st;
     aiSteps := aiSteps st;
     aiSelected := aiSelected st;
     log := log st |}.

Definition setAiPlanning (v : bool) (st : state) : state :=
  {| selectedCommands := selectedCommands st;
     customCommands := customCommands st;
     execution := execution st;
     isExecuting := isExecuting st;
     liveOutputs := liveOutputs st;
     aiGoal := aiGoal st;
     aiAssumeSudo := aiAssumeSudo st;
     aiPlanning := v;
     aiSteps := aiSteps st;
     aiSelected := aiSelected st;
     log := log st |}.

Definition setAiSteps (v : list plan_step) (st : state) : state :=
  {| selectedCommands := selectedCommands st;
     customCommands := customCommands st;
     execution := execution st;
     isExecuting := isExecuting st;
     liveOutputs := liveOutputs st;
     aiGoal := aiGoal st;
     aiAssumeSudo := aiAssumeSudo st;
     aiPlanning := aiPlanning st;
     aiSteps := v;
     aiSelected := aiSelected st;
     log := log st |}.

Definition setAiSelected (v : gmap jsstring bool) (st : state) : state :=
  {| selectedCommands := selectedCommands st;
     customCommands := customCommands st;
     execution := execution st;
     isExecuting := isExecuting st;
     liveOutputs := liveOutputs st;
     aiGoal := aiGoal st;
     aiAssumeSudo := aiAssumeSudo st;
     aiPlanning := aiPlanning st;
     aiSteps := aiSteps st;
     aiSelected := v;
     log := log st |}.

Definition perform (e : effect) (st : state) : state :=
  {| selectedCommands := selectedCommands st;
     customCommands := customCommands st;
     execution := execution st;
     isExecuting := isExecuting st;
     liveOutputs := liveOutputs st;
     aiGoal := aiGoal st;
     aiAssumeSudo := aiAssumeSudo st;
     aiPlanning := aiPlanning st;
     aiSteps := aiSteps st;
     aiSelected := aiSelected st;
     log := log st ++ [e] |}.

Definition loadExecutionHistory (st : state) : state :=
  perform (Http GetExecutions) st.

(** The updater passed to [setLiveOutputs] for an [execution_progress]
    message, lines 610-618, on the own properties of [prev], which the
    spread copies into [next]. *)
Definition progress_update (command status output : jsval)
    (prev : gmap jsstring jsstring) : gmap jsstring jsstring :=
  let key := ToString command in
  if is_str status "started" && negb (Obj.has prev key)
  then Obj.set prev key []
  else if (is_str status "completed" || is_str status "error")
          && typeof_string output
  then Obj.set prev key (ToString output)
  else prev.

(** [handleWebSocketMessage(data)], lines 602-657, up to the [await] of
    the asynchronous branches. *)
Definition handleWebSocketMessage (data : jsval) (st : state)
  : completion state :=
  match get data "type" with
  | Throw e => Throw e
  | Normal type =>
      Normal
        (if is_str type "execution_started" then
           setLiveOutputs ∅
             (perform (Toast info (str "Command execution started")) st)
         else if is_str type "execution_progress" then
           setLiveOutputs
             (progress_update (member data "command") (member data "status")
                (member data "output") (liveOutputs st))
             st
         else if is_str type "execution_completed" then
           let st :=
             setIsExecuting false
               (perform (Toast success (str "Commands executed successfully"))
                  st) in
           if truthy (member data "execution_id")
           then perform
                  (Http (GetExecution (ToString (member data "execution_id"))))
                  st
           else loadExecutionHistory st
         else if is_str type "execution_failed" then
           let st :=
             setIsExecuting false
               (perform
                  (Toast error
                     (str "Execution failed: "
                      ++ ToString (member data "error")))
                  st) in
           if truthy (member data "execution_id")
           then perform
                  (Http (GetExecution (ToString (member data "execution_id"))))
                  st
           else loadExecutionHistory st
         else
           perform (ConsoleLog (str "Unknown WebSocket message:")) st)
  end.

(** The rest of the [execution_completed] and [execution_failed]
    branches, once [GET /executions/<id>] has settled: with the snapshot
    of the response, or with the failure. *)
Definition completedFetchSettled (response : option snapshot) (st : state)
  : state :=
  loadExecutionHistory
    (match response with
     | Some e => setExecution (Some e) st
     | None =>
         perform (ConsoleError (str "Failed to fetch completed execution")) st
     end).

Definition failedFetchSettled (response : option snapshot) (st : state)
  : state :=
  loadExecutionHistory
    (match response with
     | Some e => setExecution (Some e) st
     | None =>
         perform (ConsoleError (str "Failed to fetch failed execution")) st
     end).

(** [clearRanCommands], lines 709-725. *)
Definition clearRanCommands (st : state) : state :=
  let ran : gset jsstring := list_to_set (commands_of (execution st)) in
  let st1 :=
    setSelectedCommands
      (List.filter (fun c => negb (bool_decide (c ∈ ran)))
         (selectedCommands st)) st in
  let st2 :=
    setCustomCommands
      (match execution st with
       | None => customCommands st1
       | Some _ =>
           join_lines
             (List.filter (fun line => negb (bool_decide (trim line ∈ ran)))
                (split_lines (customCommands st1)))
       end) st1 in
  perform (Toast success (str "Cleared ran commands")) st2.

(** [handleCommandToggle(command, checked)]. *)
Definition handleCommandToggle (c : jsstring) (checked : bool) (st : state)
  : state :=
  if checked then setSelectedCommands (selectedCommands st ++ [c]) st
  else setSelectedCommands
         (List.filter (fun cmd => negb (bool_decide (cmd = c)))
            (selectedCommands st)) st.

(** [handleExecuteCommands], lines 735-761, up to its [await]. *)
Definition handleExecuteCommands (st : state) : state :=
  let allCommands := selectedCommands st ++ custom_lines (customCommands st) in
  match allCommands with
  | [] =>
      perform
        (Toast error (str "Please select or enter at least one command")) st
  | _ => perform (Http (PostExecute allCommands)) (setIsExecuting true st)
  end.

Definition executeSettled (response : option snapshot) (st : state) : state :=
  match response with
  | Some e =>
      perform (Toast info (str "Commands are being executed..."))
        (setExecution (Some e) st)
  | None =>
      setIsExecuting false
        (perform (Toast error (str "Failed to start command execution"))
           (perform (ConsoleError (str "Error executing commands:")) st))
  end.

(** *** The AI runner *)

(** The [onClick] of Plan, lines 940-963, up to its [await]. *)
Definition requestPlan (st : state) : state :=
  match trim (aiGoal st) with
  | [] => setAiPlanning false (perform (Toast error (str "Enter a goal")) st)
  | _ =>
      perform (Http (PostPlan (aiGoal st) (aiAssumeSudo st)))
        (setAiSelected ∅ (setAiSteps [] (setAiPlanning true st)))
  end.

(** [steps.forEach(s => initSel[s.id] = true)]. *)
Definition select_all (steps : list plan_step) : gmap jsstring bool :=
  fold_left (fun sel s => Obj.set sel (step_id s) true) steps ∅.

(** The rest of that handler: with the steps of the response
    ([(res.data && res.data.steps) || []]), or with the failure. *)
Definition planSettled (response : option (list plan_step)) (st : state)
  : state :=
  setAiPlanning false
    (match response with
     | Some steps =>
         perform (Toast success (str "Plan ready"))
           (setAiSelected (select_all steps) (setAiSteps steps st))
     | None =>
         perform (Toast error (str "Failed to generate plan"))
           (perform (ConsoleError (str "AI plan failed")) st)
     end).

(** Select All, Clear, and the [onCheckedChange] of the checkbox of the
    step with the given id, whose [{...prev, [s.id]: !!checked}] defines
    the property on the new object itself, whatever its name. *)
Definition selectAllSteps (st : state) : state :=
  setAiSelected (select_all (aiSteps st)) st.

Definition clearSteps (st : state) : state := setAiSelected ∅ st.

Definition onCheckedChange (id : jsstring) (checked : bool) (st : state)
  : state :=
  setAiSelected (<[id := checked]> (aiSelected st)) st.

(** [aiSelected[s.id]]. *)
Definition selected_value (sel : gmap jsstring bool) (s : plan_step)
  : Obj.read bool :=
  Obj.get sel (step_id s).

(** [aiSelected[s.id]] as a condition: an own property holds a
    boolean. *)
Definition selected (sel : gmap jsstring bool) (s : plan_step) : bool :=
  Obj.is_truthy (fun b : bool => b) (selected_value sel s).

(** The [checked] of the checkbox of step [s]: [!!aiSelected[s.id]]. *)
Definition checkbox_checked (sel : gmap jsstring bool) (s : plan_step) : bool :=
  negb (negb (selected sel s)).

(** The [onClick] of Run Plan, lines 1016-1029, up to its [await]. *)
Definition runPlan (st : state) : state :=
  let cmds :=
    command <$> List.filter (selected (aiSelected st)) (aiSteps st) in
  match cmds with
  | [] => perform (Toast error (str "Select at least one step")) st
  | _ => perform (Http (PostExecute cmds)) (setIsExecuting true st)
  end.

Definition runPlanSettled (response : option snapshot) (st : state) : state :=
  match response with
  | Some e =>
      perform (Toast info (str "Running AI plan..."))
        (setExecution (Some e) st)
  | None =>
      setIsExecuting false
        (perform (Toast error (str "Failed to start AI plan"))
           (perform (ConsoleError (str "Run AI plan failed")) st))
  end.

(** *** What the rendered buttons let through *)

(** Execute Commands is [disabled={isExecuting}]. *)
Definition clickExecuteCommands (st : state) : state :=
  if isExecuting st then st else handleExecuteCommands st.

(** Run Plan is rendered when [aiSteps.length > 0], and never disabled. *)
Definition clickRunPlan (st : state) : state :=
  match aiSteps st with
  | [] => st
  | _ => runPlan st
  end.

(** Plan is [disabled={aiPlanning}]. *)
Definition clickPlan (st : state) : state :=
  if aiPlanning st then st else requestPlan st.

(** Clear Ran Commands is disabled without an execution that has
    commands. *)
Definition clickClearRanCommands (st : state) : state :=
  match commands_of (execution st) with
  | [] => st
  | _ => clearRanCommands st
  end.

(** The state a socket message leaves behind: a handler that throws has
    changed nothing. *)
Definition after_message (data : jsval) (st : state) : state :=
  match handleWebSocketMessage data st with
  | Normal st' => st'
  | Throw _ => st
  end.

(** The requests a handler has issued: those of the log of [st'] past
    the log of [st]. *)
Definition requests_of (l : list effect) : list request :=
  omap (fun e => match e with Http r => Some r | _ => None end) l.

End Executor.

(** ** Sample states and messages *)

Module Samples.
Import Executor.

Definition bgp_step : plan_step :=
  {| step_id := str "step-1";
     description := str "List the BGP neighbours";
     command := str "show ip bgp summary" |}.

Definition route_step : plan_step :=
  {| step_id := str "step-2";
     description := str "Show the routing table";
     command := str "show ip route" |}.

(** A freshly mounted executor with two commands ticked and three lines
    typed into the custom commands box. *)
Definition fresh : state :=
  {| selectedCommands := [str "show version"; str "show interfaces"];
     customCommands :=
       str "show ip route" ++ LF :: str "  show version  "
       ++ LF :: str "show clock";
     execution := None;
     isExecuting := false;
     liveOutputs := ∅;
     aiGoal := str "check BGP neighbors";
     aiAssumeSudo := true;
     aiPlanning := false;
     aiSteps := [];
     aiSelected := ∅;
     log := [] |}.

(** The same once a plan of two steps has arrived. *)
Definition planned : state := planSettled (Some [bgp_step; route_step]) fresh.

(** An execution that ran one command, and the state showing it. *)
Definition ran_version : snapshot :=
  {| exec_id := str "e1";
     status := str "completed";
     commands := Some [str "show version"];
     raw_outputs := None |}.

Definition finished : state := setExecution (Some ran_version) planned.

Definition progress_started : jsval :=
  JObj [(str "type", JStr (str "execution_progress"));
        (str "command", JStr (str "show version"));
        (str "status", JStr (str "started"))].

Definition failed_unreachable : jsval :=
  JObj [(str "type", JStr (str "execution_failed"));
        (str "execution_id", JStr (str "e1"));
        (str "error", JStr (str "Unreachable"))].

(** A reply of the assistant: a fenced block of four lines, then two
    prompt lines, the second repeating a command of the block. *)
Definition reply : jsstring :=
  join_lines
    [str "Check the neighbours first:";
     AIChat.fence ++ str "bash";
     str "$ show ip bgp summary";
     str "# then the routes";
     str "  show ip route  ";
     str "";
     AIChat.fence;
     str "$ show clock";
     str "$ show ip route"].

Definition basic_executing : Basic.state :=
  {| Basic.selectedCommands := [str "show version"];
     Basic.customCommands := [];
     Basic.execution := None;
     Basic.isExecuting := true;
     Basic.log := [] |}.

End Samples.

(** ** The flag update both versions are compared with *)

(** The update of [isExecuting] as the specification words it: a message
    of type [execution_completed] or [execution_failed] sets the flag to
    false, any other message leaves it as it is. *)
Definition clears_flag (data : jsval) : bool :=
  is_str (member data "type") "execution_completed"
  || is_str (member data "type") "execution_failed".

Definition flag_after (data : jsval) (flag : bool) : bool :=
  if clears_flag data then false else flag.

(** ** The AI chat: context sent along, commands run automatically *)

Module Chat.
Import AIChat.

(** The [settings] cell of the chat. *)
Record settings := {
  smartContext : bool;
  autoContext : bool;
  contextLines : Z;
  includeCommands : bool;
  includeErrors : bool;
  autoSendOnError : bool;
  autoRun : bool;
  confirmBeforeRun : bool
}.

(** The initial settings, lines 43-52. *)
Definition initial_settings : settings :=
  {| smartContext := true; autoContext := false; contextLines := 20;
     includeCommands := true; includeErrors := true;
     autoSendOnError := false; autoRun := false; confirmBeforeRun := true |}.

(** [c] stands in [text] as it is, from some place on. *)
Definition occurs_in (c text : jsstring) : Prop :=
  exists before after, text = before ++ c ++ after.

(** [hay.includes(needle)]. *)
Fixpoint includes (needle hay : jsstring) : bool :=
  match strip_prefix needle hay with
  | Some _ => true
  | None =>
      match hay with
      | [] => false
      | _ :: hay' => includes needle hay'
      end
  end.

(** [l.slice(start)]: a negative [start] counts from the end. *)
Definition slice_from {A} (start : Z) (l : list A) : list A :=
  if (start <? 0)%Z then drop (length l - Z.to_nat (- start)) l
  else drop (Z.to_nat start) l.

Section SmartContext.

(** [String.prototype.toLowerCase], the case mapping of Unicode. *)
Variable toLowerCase : jsstring -> jsstring.

(** The test for a line that reports an error, lines 107-113. *)
Definition mentions_error (trimmed : jsstring) : bool :=
  includes (str "error") (toLowerCase trimmed)
  || includes (str "failed") (toLowerCase trimmed)
  || includes (str "not found") (toLowerCase trimmed)
  || includes (str "E:") trimmed
  || includes (str "ERROR") trimmed.

(** One turn of the loop of [getSmartContext] over the recent lines:
    the local list [contextLines] before and after [line]. *)
Definition context_step (s : settings) (acc : list jsstring)
    (line : jsstring) : list jsstring :=
  let trimmed := trim line in
  match trimmed with
  | [] => acc
  | _ =>
      if includeCommands s
         && (startsWith [36] trimmed || startsWith [35] trimmed
             || includes [64] trimmed)
      then acc ++ [line]
      else if includeErrors s && mentions_error trimmed
      then acc ++ [line]
      else if (Z.of_nat (length acc) <? contextLines s)%Z
      then acc ++ [line]
      else acc
  end.

(** [getSmartContext], lines 87-125. *)
Definition getSmartContext (s : settings) (terminalContent : jsstring)
  : jsstring :=
  match terminalContent with
  | [] => terminalContent
  | _ =>
      if negb (smartContext s) then terminalContent
      else
        let recentLines :=
          slice_from (- contextLines s) (split_lines terminalContent) in
        join_lines (fold_left (context_step s) recentLines [])
  end.

End SmartContext.


(** The loop of [sendToAI] that runs the suggested commands, lines
    193-201, over whatever [onSendCommand] acts on.  [confirm] is the
    answer of [window.confirm] to a question; the commands of a reply
    differ from each other, so no question is asked twice. *)
Definition autoRunCommands {T} (s : settings) (confirm : jsstring -> bool)
    (onSendCommand : option (jsstring -> T -> T)) (aiResponse : jsstring)
    (t : T) : T :=
  if autoRun s then
    fold_left
      (fun t cmd =>
         let ok :=
           if negb (confirmBeforeRun s) then true
           else confirm (str "Run command?" ++ [LF; LF] ++ cmd) in
         match onSendCommand with
         | Some send => if ok then send cmd t else t
         | None => t
         end)
      (extractCommandsFromText aiResponse) t
  else t.

End Chat.

(** ** The terminal view: what is on the screen *)

Module TerminalContent.

(** What [ws.onmessage] hands to [term.write] for a frame. *)
Definition frame_text (data : TerminalView.ws_data) : jsstring :=
  match data with
  | TerminalView.WsText s => s
  | TerminalView.WsBinary _ => []
  end.

(** The server has been told the size the terminal has: the frames
    sent end in a resize frame of that size and the input frames sent
    since. *)
Definition size_reported (st : TerminalView.state) : Prop :=
  TerminalView.readyState st = TerminalView.OPEN ->
  exists before inputs,
    TerminalView.sent st
    = before
      ++ TerminalView.resize_message (TerminalView.cols st)
           (TerminalView.rows st)
         :: (TerminalView.input_message <$> inputs).

(** An event that, met in state [st], leaves the server knowing the
    size: not an opening of the socket at which the terminal could not
    be fitted, and not a fit by [waitForRender] that changes the size
    while the socket is open. *)
Definition keeps_size_reported (st : TerminalView.state)
    (ev : TerminalView.event) : Prop :=
  match ev with
  | TerminalView.WsOpen TerminalView.FitThrows => False
  | TerminalView.RenderTimer true (TerminalView.FitOk c r) =>
      TerminalView.readyState st = TerminalView.OPEN ->
      c = TerminalView.cols st /\ r = TerminalView.rows st
  | _ => True
  end.

(** A sequence of such events, from state [st] on. *)
Fixpoint size_kept (evs : list TerminalView.event) (st : TerminalView.state)
  : Prop :=
  match evs with
  | [] => True
  | ev :: evs' =>
      keeps_size_reported st ev /\ size_kept evs' (TerminalView.step st ev)
  end.

(** An event other than the opening of the socket. *)
Definition not_open (ev : TerminalView.event) : Prop :=
  match ev with
  | TerminalView.WsOpen _ => False
  | _ => True
  end.

(** [getTerminalContent], lines 169-183, over the lines of the active
    buffer: each is the text [translateToString(true)] gives, or is
    missing. *)
Definition getTerminalContent (buffer : list (option jsstring)) : jsstring :=
  trim
    (fold_left
       (fun content line =>
          match line with
          | Some text => content ++ text ++ [LF]
          | None => content
          end)
       buffer []).

(** What [sendToAI] and [copyTerminalContent] do: an alert, or a text
    put on the clipboard. *)
Inductive outcome :=
| Alert (message : jsstring)
| ClipboardWrite (text : jsstring).

(** [sendToAI], lines 265-280, up to its [await]. *)
Definition sendToAI (buffer : list (option jsstring)) : outcome :=
  match getTerminalContent buffer with
  | [] => Alert (str "No terminal content to send")
  | content =>
      ClipboardWrite (str "Terminal Context:" ++ [LF; LF] ++ content)
  end.

End TerminalContent.

(** ** The command executor: the remaining buttons and labels *)

Module ExecutorPanel.
Import Executor.

(** The [checked] of the checkbox of a template or of a suggestion:
    [selectedCommands.includes(command)]. *)
Definition command_checked (c : jsstring) (st : state) : bool :=
  bool_decide (c ∈ selectedCommands st).

(** A click on the checkbox of command [c]: the checkbox reports the
    opposite of what it shows. *)
Definition clickCommandCheckbox (c : jsstring) (st : state) : state :=
  handleCommandToggle c (negb (command_checked c st)) st.

(** The number shown before "commands selected", line 1138. *)
Definition commands_selected (st : state) : nat :=
  (length (selectedCommands st)
   + length (custom_lines (customCommands st)))%nat.

(** Clear All, lines 1144-1147. *)
Definition clearAll (st : state) : state :=
  setCustomCommands [] (setSelectedCommands [] st).

(** What the user can do to the selection, and a session of it. *)
Inductive selection_event :=
| ClickCommand (c : jsstring)
| ClickClearAll
| ClickClearRan
| ExecutionFetched (e : snapshot).

Definition selection_step (st : state) (ev : selection_event) : state :=
  match ev with
  | ClickCommand c => clickCommandCheckbox c st
  | ClickClearAll => clearAll st
  | ClickClearRan => clickClearRanCommands st
  | ExecutionFetched e => setExecution (Some e) st
  end.

(** What the live panel shows for a command, line 1284,
    [liveOutputs[cmd] ? liveOutputs[cmd] : (pending)]: the output, an
    inherited member of the object, or the pending mark. *)
Inductive shown :=
| Output (text : jsstring)
| InheritedMember
| Pending.

Definition live_output (cmd : jsstring) (st : state) : shown :=
  match Obj.get (liveOutputs st) cmd with
  | Obj.Own (c :: out) => Output (c :: out)
  | Obj.Own [] => Pending
  | Obj.Inherited => InheritedMember
  | Obj.Undefined => Pending
  end.

(** The messages the server sends while it runs commands. *)
Definition started_message : jsval :=
  JObj [(str "type", JStr (str "execution_started"))].

Definition progress_message (cmd : jsstring) (status : string)
    (output : option jsstring) : jsval :=
  JObj ([(str "type", JStr (str "execution_progress"));
         (str "command", JStr cmd);
         (str "status", JStr (str status))]
        ++ match output with
           | Some out => [(str "output", JStr out)]
           | None => []
           end).

(** One command run to its end: started, then completed with its
    output. *)
Definition command_messages (run : jsstring * jsstring) : list jsval :=
  [progress_message run.1 "started" None;
   progress_message run.1 "completed" (Some run.2)].

(** The types of message the handler knows. *)
Definition known_types : list jsval :=
  [JStr (str "execution_started"); JStr (str "execution_progress");
   JStr (str "execution_completed"); JStr (str "execution_failed")].

(** The component after a sequence of socket messages. *)
Definition after_messages (msgs : list jsval) (st : state) : state :=
  fold_left (fun st data => after_message data st) msgs st.

End ExecutorPanel.

(** ** The dashboard *)

Module Dashboard.

(** [formatTimeAgo(timestamp)], with the time of the call: both are
    times in milliseconds. *)
Definition formatTimeAgo (now time : Z) : jsstring :=
  let diffInMinutes := ((now - time) / (1000 * 60))%Z in
  if (diffInMinutes <? 1)%Z then str "Just now"
  else if (diffInMinutes <? 60)%Z
  then Number_toString diffInMinutes ++ str "m ago"
  else
    let diffInHours := (diffInMinutes / 60)%Z in
    if (diffInHours <? 24)%Z
    then Number_toString diffInHours ++ str "h ago"
    else
      let diffInDays := (diffInHours / 24)%Z in
      Number_toString diffInDays ++ str "d ago".

End Dashboard.

(** * Properties *)

(** ** The terminal view *)

Section TerminalViewFacts.
Import TerminalView.

Lemma input_message_members data :
  member (input_message data) "type" = JStr (str "input")
  /\ member (input_message data) "data" = JStr data.
Proof. split; reflexivity. Qed.

Lemma resize_message_members c r :
  member (resize_message c r) "type" = JStr (str "resize")
  /\ member (resize_message c r) "cols" = JNum c
  /\ member (resize_message c r) "rows" = JNum r.
Proof. repeat split; reflexivity. Qed.

Lemma resize_sends st ev fit st' :
  (st' = trySendResize fit st \/ st' = refitTerminal fit st) ->
  exists new, sent st' = sent st ++ new /\ sends st ev st' new.
Proof.
  intros Hst'. destruct fit as [c r|].
  - assert (st' = trySendResize (FitOk c r) st) as ->.
    { destruct Hst' as [->| ->]; reflexivity. }
    unfold trySendResize. cbn [term_resize readyState].
    case_bool_decide as Hopen.
    + exists [resize_message c r]. split; [reflexivity|].
      by apply (sends_resize st ev
                  (ws_send (resize_message c r) (term_resize c r st))).
    + exists []. split; [cbn; by rewrite app_nil_r | constructor].
  - exists []. split; [|constructor].
    destruct Hst' as [->| ->]; cbn; by rewrite app_nil_r.
Qed.

Lemma handler_sends st ev :
  exists new,
    sent (handler ev st) = sent st ++ new /\ sends st ev (handler ev st) new.
Proof.
  assert (Hnone : forall st', sent st' = sent st ->
                              exists new, sent st' = sent st ++ new
                                          /\ sends st ev st' new).
  { intros st' Heq. exists []. rewrite app_nil_r. split; [done | constructor]. }
  destruct ev as [rendered fit|fit|data| | |data|fit|fit|command| ];
    cbn [handler].
  - apply Hnone. by destruct rendered, fit.
  - eapply resize_sends; by left.
  - by apply Hnone.
  - by apply Hnone.
  - by apply Hnone.
  - unfold onData. case_bool_decide as Hopen; [|by apply Hnone].
    exists [input_message data]. split; [done|].
    by apply (sends_keys st _ _ data).
  - eapply resize_sends; by left.
  - eapply resize_sends; by right.
  - unfold sendCommandToTerminal.
    case_bool_decide as Hopen; [|by apply Hnone].
    exists [input_message (command ++ [LF])]. split; [done|].
    by apply (sends_command st _ _ command).
  - apply Hnone. by destruct (readyState st).
Qed.

Lemma sends_client_message st ev st' new :
  sends st ev st' new -> Forall client_message new.
Proof.
  intros [ | data _ _ | command _ _ | _ _ ]; [constructor|..];
    apply Forall_singleton.
  - left. by eexists.
  - left. by eexists.
  - right. by do 2 eexists.
Qed.

(** C2.  Whatever the state of the view and whatever happens to it, the
    handler that runs appends to the frames sent either nothing or one
    frame, and a frame only while the socket is [OPEN]: an input frame
    carrying the keystrokes as typed, an input frame carrying a chat
    command followed by one line feed, or a resize frame carrying the
    numbers of columns and rows the terminal has then. *)
Theorem terminal_frames_sent st ev :
  exists new,
    sent (handler ev st) = sent st ++ new
    /\ sends st ev (handler ev st) new
    /\ Forall client_message new.
Proof.
  destruct (handler_sends st ev) as (new & Hsent & Hsends).
  exists new. eauto using sends_client_message.
Qed.

(** Over a whole life of the view every frame sent has one of the two
    shapes. *)
Lemma run_sent_from st evs :
  Forall client_message (sent st) ->
  Forall client_message (sent (run evs st)).
Proof.
  revert st. induction evs as [|ev evs IH]; intros st Hst; [done|].
  cbn. apply IH. unfold step.
  destruct (handler_sends (browser ev st) ev) as (new & -> & Hnew).
  apply Forall_app. split; [|by eapply sends_client_message].
  by destruct ev.
Qed.

Lemma run_sent_init evs c r :
  Forall client_message (sent (run evs (init c r))).
Proof. apply run_sent_from. constructor. Qed.

(** C3.  A text frame from the server is handed to [term.write] as it
    came: it is the one thing written, the display grows by exactly its
    characters, and nothing is sent back. *)
Theorem text_frame_written_verbatim st s :
  written (step st (WsMessage (WsText s))) = written st ++ [s]
  /\ display (step st (WsMessage (WsText s))) = display st ++ s
  /\ sent (step st (WsMessage (WsText s))) = sent st
  /\ readyState (step st (WsMessage (WsText s))) = readyState st.
Proof.
  unfold step, display. cbn. rewrite concat_app. cbn.
  by rewrite app_nil_r.
Qed.

(** C10.  A frame that is not text makes the handler write the empty
    string: the handler completes, the display and the frames sent are
    what they were, and the bytes of the frame appear nowhere. *)
Theorem binary_frame_discarded st bytes :
  written (step st (WsMessage (WsBinary bytes))) = written st ++ [[]]
  /\ display (step st (WsMessage (WsBinary bytes))) = display st
  /\ sent (step st (WsMessage (WsBinary bytes))) = sent st
  /\ readyState (step st (WsMessage (WsBinary bytes))) = readyState st.
Proof.
  unfold step, display. cbn. rewrite concat_app. cbn.
  by rewrite app_nil_r.
Qed.

End TerminalViewFacts.

(** ** The AI chat *)

Section AIChatFacts.
Import AIChat.

(** The de-duplication loop keeps what it had, adds each new command
    once, and forgets nothing. *)
Lemma dedup_loop_spec cmds : forall (seen : gset jsstring) unique,
  NoDup unique ->
  (forall c, c ∈ seen <-> c ∈ unique) ->
  NoDup (dedup_loop seen unique cmds)
  /\ (forall c, c ∈ dedup_loop seen unique cmds <-> c ∈ unique \/ c ∈ cmds)
  /\ unique `prefix_of` dedup_loop seen unique cmds.
Proof.
  induction cmds as [|c cmds IH]; intros seen unique Hnd Hseen; cbn.
  - split; [done|]. split; [|done]. intros c. rewrite elem_of_nil. tauto.
  - case_bool_decide as Hin.
    + destruct (IH seen unique Hnd Hseen) as (IH1 & IH2 & IH3).
      split; [done|]. split; [|done].
      intros c'. rewrite IH2, elem_of_cons.
      split; [tauto|]. intros [?|[->|?]]; auto. left. by apply Hseen.
    + destruct (IH ({[c]} ∪ seen) (unique ++ [c])) as (IH1 & IH2 & IH3).
      * apply NoDup_app. split; [done|]. split; [|apply NoDup_singleton].
        intros x Hx ->%list_elem_of_singleton. apply Hin. by apply Hseen.
      * intros x. rewrite elem_of_union, elem_of_singleton, elem_of_app,
          list_elem_of_singleton, Hseen. tauto.
      * split; [done|]. split.
        -- intros c'. rewrite IH2, elem_of_app, list_elem_of_singleton,
             elem_of_cons. tauto.
        -- etrans; [|exact IH3]. by apply prefix_app_r.
Qed.

(** First occurrences, in order: de-duplicating a list extended at its
    end only appends the commands not seen before. *)
Lemma dedup_loop_app cmds1 cmds2 : forall (seen : gset jsstring) unique,
  dedup_loop seen unique (cmds1 ++ cmds2)
  = dedup_loop (list_to_set cmds1 ∪ seen) (dedup_loop seen unique cmds1) cmds2.
Proof.
  induction cmds1 as [|c cmds1 IH]; intros seen unique; cbn.
  - by rewrite (left_id_L ∅ (∪)).
  - case_bool_decide as Hin.
    + rewrite IH. f_equal. apply set_eq. intros x.
      rewrite !elem_of_union, elem_of_singleton.
      split; [tauto|]. intros [[->|?]|?]; auto.
    + rewrite IH. f_equal. apply set_eq. intros x.
      rewrite !elem_of_union, elem_of_singleton. tauto.
Qed.

(** The part of C5 that holds: no command twice. *)
Lemma extract_NoDup text : NoDup (extractCommandsFromText text).
Proof.
  unfold extractCommandsFromText. destruct text as [|c text]; [constructor|].
  eapply sublist_NoDup; [|apply sublist_take].
  apply (dedup_loop_spec _ ∅ []); [constructor|].
  intros x. by rewrite elem_of_nil, elem_of_empty.
Qed.

(** The part of C5 that holds: at most twenty commands. *)
Lemma extract_length text : (length (extractCommandsFromText text) <= 20)%nat.
Proof.
  unfold extractCommandsFromText. destruct text; cbn [length]; [lia|].
  rewrite length_take. lia.
Qed.

(** Every command extracted was collected from a block or from a
    prompt line. *)
Lemma extract_collected text c :
  c ∈ extractCommandsFromText text -> c ∈ collected_commands text.
Proof.
  unfold extractCommandsFromText. destruct text as [|x text].
  - by intros ?%elem_of_nil.
  - intros Hc. eapply elem_of_sublist in Hc; [|apply sublist_take].
    destruct (dedup_loop_spec (collected_commands (x :: text)) ∅ [])
      as (_ & H & _); [constructor| |].
    + intros y. by rewrite elem_of_nil, elem_of_empty.
    + apply H in Hc as [?%elem_of_nil|?]; done.
Qed.

(** The part of C5 that holds: a command taken from a code block is not
    empty and does not start with [#]. *)
Lemma block_command_clean body c :
  c ∈ block_commands body -> c <> [] /\ startsWith [35] c = false.
Proof.
  unfold block_commands. rewrite list_elem_of_In, filter_In.
  intros [_ H]. destruct c; [done|]. split; [done|].
  by apply negb_true_iff.
Qed.

(** A command taken from a prompt line is not empty either. *)
Lemma prompt_match_nonempty ln c : prompt_match ln = Some c -> c <> [].
Proof.
  assert (Hrest : forall s, rest_of_line s = Some c -> c <> []).
  { intros [|x s]; cbn; [done|]. by case_match; intros [= <-]. }
  destruct ln as [|x ln]; [done|]. unfold prompt_match.
  repeat (case_match; try done). clear -Hrest.
  induction ln as [|y ln IH]; cbn [spaces_then_rest]; [apply Hrest|].
  destruct (is_space y); [|apply Hrest].
  destruct (spaces_then_rest ln) eqn:E; [intros [= <-]; by apply IH|].
  apply Hrest.
Qed.

Example extract_reply :
  extractCommandsFromText Samples.reply
  = [str "show ip bgp summary"; str "show ip route"; str "show clock"].
Proof. by vm_compute. Qed.

(** C5, where the code departs from it.  From the reply [$ # note] the
    code extracts the one command [# note], a comment line: the filter
    that drops empty lines and comments is applied to the lines of code
    blocks only, not to the prompt lines outside them. *)
Theorem extract_keeps_prompt_comment :
  extractCommandsFromText (str "$ # note") = [str "# note"]
  /\ startsWith [35] (str "# note") = true
  /\ block_commands (str "$ # note") = [].
Proof. by vm_compute. Qed.

(** The same for a prompt followed by blanks only: the command is a
    single blank, empty once trimmed. *)
Lemma extract_keeps_blank_prompt :
  extractCommandsFromText (str "$   ") = [str " "] /\ trim (str " ") = [].
Proof. by vm_compute. Qed.

End AIChatFacts.

(** ** Lines of text *)

Section LineFacts.

Lemma split_lines_cons_line l rest :
  LF ∉ l -> split_lines (l ++ LF :: rest) = l :: split_lines rest.
Proof.
  induction l as [|c l IH]; intros Hl; cbn.
  - done.
  - apply not_elem_of_cons in Hl as [Hc Hl].
    destruct (N.eqb_spec c LF) as [->|_]; [done|].
    by rewrite (IH Hl).
Qed.

Lemma split_lines_one_line l : LF ∉ l -> split_lines l = [l].
Proof.
  induction l as [|c l IH]; intros Hl; cbn; [done|].
  apply not_elem_of_cons in Hl as [Hc Hl].
  destruct (N.eqb_spec c LF) as [->|_]; [done|].
  by rewrite (IH Hl).
Qed.

(** Splitting gives at least one line, and no line holds a line feed. *)
Lemma split_lines_not_nil s : split_lines s <> [].
Proof.
  destruct s as [|c s]; cbn; [done|].
  destruct (c =? LF); [done|]. by destruct (split_lines s).
Qed.

Lemma split_lines_no_LF s : Forall (fun l => LF ∉ l) (split_lines s).
Proof.
  induction s as [|c s IH]; cbn.
  - repeat constructor. by intros ?%elem_of_nil.
  - destruct (N.eqb_spec c LF) as [->|Hc].
    + constructor; [by intros ?%elem_of_nil | done].
    + pose proof (split_lines_not_nil s) as Hne.
      destruct (split_lines s) as [|l ls]; [done|].
      apply Forall_cons in IH as [Hl Hls]. constructor; [|done].
      rewrite not_elem_of_cons. split; [congruence | done].
Qed.

(** Joining lines and splitting again gives the lines back, as long as
    there is one. *)
Lemma split_join_lines ls :
  ls <> [] -> Forall (fun l => LF ∉ l) ls -> split_lines (join_lines ls) = ls.
Proof.
  induction ls as [|l ls IH]; intros Hne Hls; [done|].
  apply Forall_cons in Hls as [Hl Hls].
  destruct ls as [|l' ls].
  - cbn. by apply split_lines_one_line.
  - change (join_lines (l :: l' :: ls)) with (l ++ LF :: join_lines (l' :: ls)).
    rewrite split_lines_cons_line by done. by rewrite IH.
Qed.

Lemma join_split_lines s : join_lines (split_lines s) = s.
Proof.
  induction s as [|c s IH]; cbn; [done|].
  destruct (c =? LF) eqn:Hc.
  - apply N.eqb_eq in Hc as ->.
    pose proof (split_lines_not_nil s).
    destruct (split_lines s) as [|l ls] eqn:E; [done|].
    change (join_lines ([] :: l :: ls)) with (LF :: join_lines (l :: ls)).
    by rewrite IH.
  - pose proof (split_lines_not_nil s).
    destruct (split_lines s) as [|l ls] eqn:E; [done|].
    rewrite <- IH. by destruct ls.
Qed.

(** A callback into [Array.prototype.filter] that tests a decidable
    property keeps the elements with the property. *)
Lemma filter_callback {A} (P : A -> Prop) `{!forall x, Decision (P x)}
    (f : A -> bool) (l : list A) :
  (forall x, f x = true <-> P x) -> List.filter f l = filter P l.
Proof.
  intros Hf. induction l as [|x l IH]; [done|].
  rewrite filter_cons. cbn [List.filter]. rewrite IH. destruct (f x) eqn:E.
  - rewrite decide_True; [done|]. by apply Hf.
  - rewrite decide_False; [done|]. rewrite <- Hf. congruence.
Qed.

End LineFacts.

(** ** The command executor: commands already run, and the AI runner *)

Section ExecutorFacts.
Import Executor.

(** C9.  With a last execution present, [clearRanCommands] keeps of the
    selected commands exactly those that are not among the commands of
    that execution, in their order, and keeps of the lines of the custom
    commands text exactly those whose trimmed text is not among them:
    the new text is the kept lines joined, so that it splits back into
    the kept lines when a line is kept and is empty when none is.  The
    rest of the state is as it was, and the user is told. *)
Theorem clear_ran_commands st e :
  execution st = Some e ->
  let ran := commands_of (Some e) in
  let kept :=
    filter (fun line => trim line ∉ ran) (split_lines (customCommands st)) in
  let st' := clearRanCommands st in
  selectedCommands st' = filter (fun c => c ∉ ran) (selectedCommands st)
  /\ selectedCommands st' `sublist_of` selectedCommands st
  /\ customCommands st' = join_lines kept
  /\ (kept <> [] -> split_lines (customCommands st') = kept)
  /\ (kept = [] -> customCommands st' = [])
  /\ kept `sublist_of` split_lines (customCommands st)
  /\ execution st' = execution st
  /\ isExecuting st' = isExecuting st
  /\ liveOutputs st' = liveOutputs st
  /\ aiSteps st' = aiSteps st
  /\ aiSelected st' = aiSelected st
  /\ log st' = log st ++ [Toast success (str "Cleared ran commands")].
Proof.
  intros He ran kept st'.
  assert (Hsel : selectedCommands st'
                 = filter (fun c => c ∉ ran) (selectedCommands st)).
  { subst st'. unfold clearRanCommands. cbn. rewrite He.
    apply filter_callback. intros c.
    rewrite negb_true_iff, bool_decide_eq_false, elem_of_list_to_set. done. }
  assert (Hcustom : customCommands st' = join_lines kept).
  { subst st' kept. unfold clearRanCommands. cbn. rewrite He. f_equal.
    apply filter_callback. intros c.
    rewrite negb_true_iff, bool_decide_eq_false, elem_of_list_to_set. done. }
  split; [done|]. split; [rewrite Hsel; apply sublist_filter|].
  split; [done|]. split; [|split; [|split]].
  - intros Hne. rewrite Hcustom. apply split_join_lines; [done|].
    apply Forall_forall. intros l Hl.
    eapply elem_of_sublist in Hl; [|apply sublist_filter].
    revert l Hl. apply Forall_forall, split_lines_no_LF.
  - intros Hnil. by rewrite Hcustom, Hnil.
  - apply sublist_filter.
  - subst st'. by unfold clearRanCommands.
Qed.

(** What the selection buttons do to the checkboxes. *)
Lemma set_true_selected (sel : gmap jsstring bool) k s :
  step_id s = k \/ selected sel s = true ->
  selected (Obj.set sel k true) s = true.
Proof.
  unfold selected, selected_value, Obj.get, Obj.set. intros Hs.
  destruct (decide (step_id s = k)) as [Hk|Hk].
  - rewrite Hk. case_bool_decide as Hproto; cbn [andb].
    + destruct (sel !! k) as [b|] eqn:Hown; cbn.
      * by rewrite lookup_insert_eq.
      * rewrite Hown, Hproto. by vm_compute.
    + by rewrite lookup_insert_eq.
  - destruct Hs as [?|Hs]; [done|].
    destruct (bool_decide (k = str "__proto__")
              && negb (bool_decide (is_Some (sel !! k)))); [done|].
    by rewrite lookup_insert_ne.
Qed.

Lemma select_all_lookup steps : forall (sel : gmap jsstring bool) s,
  s ∈ steps \/ selected sel s = true ->
  selected (fold_left (fun sel s => Obj.set sel (step_id s) true) steps sel) s
  = true.
Proof.
  induction steps as [|s0 steps IH]; intros sel s Hs; cbn [fold_left].
  - by destruct Hs as [?%elem_of_nil|?].
  - apply IH. destruct Hs as [[->|Hs]%elem_of_cons|Hs].
    + right. apply set_true_selected. by left.
    + by left.
    + right. apply set_true_selected. by right.
Qed.

Lemma plan_ready_all_checked steps st s :
  s ∈ steps ->
  checkbox_checked (aiSelected (planSettled (Some steps) st)) s = true
  /\ aiSteps (planSettled (Some steps) st) = steps.
Proof.
  intros Hs. split; [|done]. unfold checkbox_checked.
  rewrite negb_involutive.
  change (aiSelected (planSettled (Some steps) st)) with (select_all steps).
  unfold select_all. apply select_all_lookup. by left.
Qed.

Lemma checkbox_follows_click id checked st s :
  checkbox_checked (aiSelected (onCheckedChange id checked st)) s
  = if decide (step_id s = id) then checked
    else checkbox_checked (aiSelected st) s.
Proof.
  cbn. unfold checkbox_checked, selected, selected_value, Obj.get.
  case_decide as Hid.
  - subst id. rewrite lookup_insert_eq. by destruct checked.
  - by rewrite lookup_insert_ne.
Qed.

(** After Clear a checkbox is still checked when the id of its step is
    the name of an inherited member. *)
Lemma clear_unchecks_all st s :
  checkbox_checked (aiSelected (clearSteps st)) s = Obj.inherited (step_id s).
Proof.
  cbn. unfold checkbox_checked, selected, selected_value, Obj.get.
  rewrite lookup_empty. by destruct (Obj.inherited (step_id s)).
Qed.

(** The commands Run Plan works on are those of the checked steps. *)
Lemma run_plan_commands st :
  List.filter (selected (aiSelected st)) (aiSteps st)
  = filter (fun s => checkbox_checked (aiSelected st) s = true) (aiSteps st).
Proof.
  apply filter_callback. intros s. unfold checkbox_checked.
  by rewrite negb_involutive.
Qed.

(** C1.  With the steps of a plan on display, a click on Run Plan posts
    to the execute endpoint one request whose commands are the commands
    of the steps whose checkbox is checked, in the order of the plan,
    and sets the executing flag; with no checkbox checked it posts
    nothing and shows an error toast. *)
Theorem run_plan_submits_checked_steps st :
  aiSteps st <> [] ->
  let chosen :=
    filter (fun s => checkbox_checked (aiSelected st) s = true) (aiSteps st) in
  let st' := clickRunPlan st in
  chosen `sublist_of` aiSteps st
  /\ (chosen <> [] ->
      log st' = log st ++ [Http (PostExecute (command <$> chosen))]
      /\ isExecuting st' = true)
  /\ (chosen = [] ->
      log st' = log st ++ [Toast error (str "Select at least one step")]
      /\ requests_of (log st') = requests_of (log st)
      /\ isExecuting st' = isExecuting st).
Proof.
  intros Hsteps chosen st'. split; [apply sublist_filter|].
  assert (Hst' : st' = runPlan st).
  { subst st'. unfold clickRunPlan. by destruct (aiSteps st). }
  rewrite Hst'. unfold runPlan. rewrite run_plan_commands. fold chosen.
  split.
  - intros Hne. by destruct chosen.
  - intros ->. cbn. split; [done|]. split; [|done].
    unfold requests_of. by rewrite omap_app, app_nil_r.
Qed.

(** Execute Commands lets nothing through while the flag is set. *)
Lemma execute_button_disabled st :
  isExecuting st = true -> clickExecuteCommands st = st.
Proof. unfold clickExecuteCommands. by intros ->. Qed.

(** Run Plan does, whatever the flag. *)
Lemma run_plan_ignores_flag st :
  aiSteps st <> [] ->
  filter (fun s => checkbox_checked (aiSelected st) s = true) (aiSteps st)
    <> [] ->
  exists cmds,
    cmds <> []
    /\ log (clickRunPlan st) = log st ++ [Http (PostExecute cmds)].
Proof.
  intros Hsteps Hchosen. unfold clickRunPlan.
  destruct (aiSteps st) eqn:E; [done|]. rewrite <- E in *.
  unfold runPlan. rewrite run_plan_commands.
  destruct (filter _ (aiSteps st)) as [|s0 chosen]; [done|].
  by exists (command <$> s0 :: chosen).
Qed.

(** C7, where the code departs from it.  With a plan on display the
    user clicks Execute Commands and then, the first execution still
    running and the flag set, Run Plan: a second request goes to the
    execute endpoint.  Execute Commands itself is disabled then. *)
Theorem run_plan_submits_while_executing :
  let st1 := clickExecuteCommands Samples.planned in
  let st2 := clickRunPlan st1 in
  isExecuting st1 = true
  /\ clickExecuteCommands st1 = st1
  /\ requests_of (log st2)
     = [PostExecute [str "show version"; str "show interfaces";
                     str "show ip route"; str "  show version  ";
                     str "show clock"];
        PostExecute [str "show ip bgp summary"; str "show ip route"]].
Proof. by vm_compute. Qed.

Lemma clear_ran_commands_witness :
  execution Samples.finished = Some Samples.ran_version
  /\ selectedCommands (clearRanCommands Samples.finished)
     = [str "show interfaces"]
  /\ customCommands (clearRanCommands Samples.finished)
     = str "show ip route" ++ LF :: str "show clock".
Proof.
  split; [reflexivity|].
  destruct (clear_ran_commands Samples.finished Samples.ran_version eq_refl)
    as (Hsel & _ & Hcustom & _).
  split; [rewrite Hsel | rewrite Hcustom]; by vm_compute.
Defined.

Lemma run_plan_submits_checked_steps_witness :
  aiSteps Samples.planned <> []
  /\ log (clickRunPlan Samples.planned)
     = log Samples.planned
       ++ [Http (PostExecute [str "show ip bgp summary"; str "show ip route"])].
Proof.
  assert (Hsteps : aiSteps Samples.planned <> []) by done.
  split; [done|].
  destruct (run_plan_submits_checked_steps Samples.planned Hsteps)
    as (_ & Hsome & _).
  destruct Hsome as [Hlog _]; [by vm_compute|].
  rewrite Hlog. by vm_compute.
Defined.

(** Scenario E of the specification: of a plan of two steps the user
    unticks the first and runs the plan; only the second command is
    submitted. *)
Example run_plan_after_unticking :
  requests_of
    (log (clickRunPlan
            (onCheckedChange (str "step-1") false Samples.planned)))
  = [PostExecute [str "show ip route"]].
Proof. by vm_compute. Qed.

End ExecutorFacts.

(** ** The command executor: messages from the socket *)

Section MessageFacts.
Import Executor.

Lemma get_type_object data t :
  get data "type" = Normal t -> member data "type" = t.
Proof. destruct data; cbn; congruence. Qed.

Lemma is_str_true v lit : is_str v lit = true <-> v = JStr (str lit).
Proof.
  destruct v; cbn; try (split; [done | congruence]).
  rewrite bool_decide_eq_true. split; congruence.
Qed.

(** The literals of the [switch] are different strings. *)
Lemma message_types_differ :
  str "execution_started" <> str "execution_progress"
  /\ str "execution_started" <> str "execution_completed"
  /\ str "execution_started" <> str "execution_failed"
  /\ str "execution_progress" <> str "execution_completed"
  /\ str "execution_progress" <> str "execution_failed"
  /\ str "execution_completed" <> str "execution_failed"
  /\ str "started" <> str "completed"
  /\ str "started" <> str "error".
Proof. repeat split; by vm_compute. Qed.

Lemma is_str_other (a b : string) :
  str a <> str b -> is_str (JStr (str a)) b = false.
Proof. intros H. cbn. by apply bool_decide_eq_false. Qed.

Lemma set_other {V} (o : gmap jsstring V) k v k' :
  k' <> k -> Obj.set o k v !! k' = o !! k'.
Proof.
  intros Hk. unfold Obj.set.
  destruct (bool_decide (k = str "__proto__")
            && negb (bool_decide (is_Some (o !! k)))); [done|].
  by rewrite lookup_insert_ne.
Qed.

Lemma set_not_inherited {V} (o : gmap jsstring V) k v :
  Obj.inherited k = false -> Obj.set o k v = <[k := v]> o.
Proof.
  intros Hk. unfold Obj.set. case_bool_decide as Hproto; [|done].
  rewrite Hproto in Hk. by vm_compute in Hk.
Qed.

(** The part of C4 that holds.  For a command that is not the name of a
    member objects inherit, an [execution_progress] message changes the
    live outputs as the claim says: [started] creates an empty entry
    when there is none and leaves an existing entry alone; [completed]
    or [error] with a string output sets the entry to that output.  For
    any command the entries of the other commands stay, and nothing else
    in the state changes. *)
Lemma progress_updates_one_entry data st :
  get data "type" = Normal (JStr (str "execution_progress")) ->
  let key := ToString (member data "command") in
  let status := member data "status" in
  let output := member data "output" in
  exists st',
    handleWebSocketMessage data st = Normal st'
    /\ (Obj.inherited key = false ->
        status = JStr (str "started") -> liveOutputs st !! key = None ->
        liveOutputs st' = <[key := []]> (liveOutputs st))
    /\ (status = JStr (str "started") -> is_Some (liveOutputs st !! key) ->
        liveOutputs st' = liveOutputs st)
    /\ (forall o,
          Obj.inherited key = false ->
          status = JStr (str "completed") \/ status = JStr (str "error") ->
          output = JStr o ->
          liveOutputs st' = <[key := o]> (liveOutputs st))
    /\ (forall k, k <> key -> liveOutputs st' !! k = liveOutputs st !! k)
    /\ isExecuting st' = isExecuting st
    /\ execution st' = execution st
    /\ log st' = log st.
Proof.
  intros Htype key status output.
  destruct message_types_differ as (H1 & _ & _ & _ & _ & _ & H7 & H8).
  unfold handleWebSocketMessage. rewrite Htype.
  rewrite (is_str_other "execution_progress" "execution_started")
    by congruence.
  replace (is_str (JStr (str "execution_progress")) "execution_progress")
    with true by (symmetry; by apply is_str_true).
  eexists. split; [reflexivity|]. cbn [liveOutputs setLiveOutputs].
  fold key status output. unfold progress_update. fold key.
  repeat split; try done.
  - intros Hkey -> Hnone. unfold Obj.has. rewrite Hnone, Hkey.
    replace (is_str (JStr (str "started")) "started")
      with true by (symmetry; by apply is_str_true).
    rewrite bool_decide_false by (by intros [? ?]).
    by apply set_not_inherited.
  - intros -> Hsome. unfold Obj.has. rewrite (bool_decide_true _ Hsome).
    cbn [orb negb]. rewrite andb_false_r.
    by rewrite !(is_str_other "started") by congruence.
  - intros o Hkey Hstatus ->.
    assert (is_str status "started" = false) as ->.
    { destruct Hstatus as [-> | ->]; apply is_str_other; congruence. }
    assert (is_str status "completed" || is_str status "error" = true) as ->.
    { apply orb_true_iff. rewrite !is_str_true. tauto. }
    by apply set_not_inherited.
  - intros k Hk. repeat case_match; by rewrite ?set_other.
Qed.

(** C4, where the code departs from it.  [command in next] also finds
    the members a plain object inherits: for a command called
    [constructor], with no live output entry, a [started] message
    creates no entry; and the assignment of a [completed] output to a
    command called [__proto__] goes to the inherited setter and stores
    nothing.  The live outputs, empty before, are empty after. *)
Theorem progress_skips_inherited_names :
  let started :=
    JObj [(str "type", JStr (str "execution_progress"));
          (str "command", JStr (str "constructor"));
          (str "status", JStr (str "started"))] in
  let completed :=
    JObj [(str "type", JStr (str "execution_progress"));
          (str "command", JStr (str "__proto__"));
          (str "status", JStr (str "completed"));
          (str "output", JStr (str "ok"))] in
  liveOutputs Samples.planned = ∅
  /\ liveOutputs (after_message started Samples.planned) = ∅
  /\ liveOutputs (after_message completed Samples.planned) = ∅.
Proof. by vm_compute. Qed.

(** C6.  An [execution_failed] message is always answered: an error
    toast shows the error text of the message after a fixed prefix, the
    executing flag is cleared, and then either the snapshot of the
    execution named in the message is requested, and shown once it has
    arrived, or, without an execution id, the history is reloaded. *)
Theorem execution_failed_reported data st :
  get data "type" = Normal (JStr (str "execution_failed")) ->
  let id := member data "execution_id" in
  exists st' rest,
    handleWebSocketMessage data st = Normal st'
    /\ isExecuting st' = false
    /\ log st' =
       log st
       ++ Toast error
            (str "Execution failed: " ++ ToString (member data "error"))
          :: rest
    /\ (forall text, member data "error" = JStr text ->
        ToString (member data "error") = text)
    /\ (truthy id = true -> rest = [Http (GetExecution (ToString id))])
    /\ (truthy id = false -> rest = [Http GetExecutions])
    /\ (forall e, execution (failedFetchSettled (Some e) st') = Some e)
    /\ (forall r, isExecuting (failedFetchSettled r st') = false).
Proof.
  intros Htype id.
  destruct message_types_differ as (_ & _ & H3 & _ & H5 & H6 & _).
  unfold handleWebSocketMessage. rewrite Htype.
  rewrite (is_str_other "execution_failed" "execution_started"),
    (is_str_other "execution_failed" "execution_progress"),
    (is_str_other "execution_failed" "execution_completed") by congruence.
  replace (is_str (JStr (str "execution_failed")) "execution_failed")
    with true by (symmetry; by apply is_str_true).
  fold id. destruct (truthy id) eqn:Hid.
  - do 2 eexists. split; [reflexivity|]. cbn.
    rewrite <- app_assoc. repeat split; try done.
    + by intros text ->.
    + by intros [].
  - do 2 eexists. split; [reflexivity|]. cbn.
    rewrite <- app_assoc. repeat split; try done.
    + by intros text ->.
    + by intros [].
Qed.

Lemma is_str_exclusive v (a b : string) :
  str a <> str b -> is_str v a = true -> is_str v b = true -> False.
Proof. rewrite !is_str_true. congruence. Qed.

(** C8.  On every message the two versions of the handler leave the
    same [isExecuting]: false after [execution_completed] and after
    [execution_failed], the value it had after anything else, a message
    on which the handlers throw included.  What the second version does
    once its request has settled does not touch the flag. *)
Theorem handlers_agree_on_isExecuting data (b : Basic.state) (s : state) :
  Basic.isExecuting b = isExecuting s ->
  Basic.isExecuting (Basic.after_message data b)
  = isExecuting (after_message data s)
  /\ Basic.isExecuting (Basic.after_message data b)
     = flag_after data (Basic.isExecuting b)
  /\ isExecuting (after_message data s) = flag_after data (isExecuting s)
  /\ (forall r s', isExecuting (completedFetchSettled r s') = isExecuting s')
  /\ (forall r s', isExecuting (failedFetchSettled r s') = isExecuting s').
Proof.
  intros Hflag.
  assert (Hb : Basic.isExecuting (Basic.after_message data b)
               = flag_after data (Basic.isExecuting b)).
  { unfold Basic.after_message, Basic.handleWebSocketMessage, flag_after,
      clears_flag.
    destruct (get data "type") as [t|] eqn:Ht.
    - rewrite (get_type_object _ _ Ht).
      destruct message_types_differ as (_ & H2 & H3 & _ & _ & H6 & _).
      destruct (is_str t "execution_started") eqn:E1;
        destruct (is_str t "execution_completed") eqn:E3;
        destruct (is_str t "execution_failed") eqn:E4;
        try done;
        exfalso; eauto using is_str_exclusive.
    - by destruct data. }
  assert (Hs : isExecuting (after_message data s)
               = flag_after data (isExecuting s)).
  { unfold after_message, handleWebSocketMessage, flag_after, clears_flag.
    destruct (get data "type") as [t|] eqn:Ht.
    - rewrite (get_type_object _ _ Ht).
      destruct message_types_differ as (H1 & H2 & H3 & H4 & H5 & H6 & _).
      destruct (is_str t "execution_started") eqn:E1;
        destruct (is_str t "execution_progress") eqn:E2;
        destruct (is_str t "execution_completed") eqn:E3;
        destruct (is_str t "execution_failed") eqn:E4;
        try destruct (truthy (member data "execution_id"));
        try done;
        exfalso; eauto using is_str_exclusive.
    - by destruct data. }
  split; [by rewrite Hb, Hs, Hflag|]. split; [done|]. split; [done|].
  split; by intros [e|] s'.
Qed.

Lemma progress_updates_one_entry_witness :
  get Samples.progress_started "type"
  = Normal (JStr (str "execution_progress"))
  /\ exists st',
       handleWebSocketMessage Samples.progress_started Samples.planned
       = Normal st'
       /\ liveOutputs st' = {[ str "show version" := [] ]}.
Proof.
  split; [reflexivity|].
  destruct (progress_updates_one_entry Samples.progress_started
              Samples.planned eq_refl)
    as (st' & Hrun & Hstarted & _).
  exists st'. split; [exact Hrun|].
  rewrite Hstarted; by vm_compute.
Defined.

Lemma execution_failed_reported_witness :
  get Samples.failed_unreachable "type"
  = Normal (JStr (str "execution_failed"))
  /\ exists st',
       handleWebSocketMessage Samples.failed_unreachable Samples.planned
       = Normal st'
       /\ isExecuting st' = false
       /\ log st'
          = log Samples.planned
            ++ [Toast error (str "Execution failed: Unreachable");
                Http (GetExecution (str "e1"))].
Proof.
  split; [reflexivity|].
  destruct (execution_failed_reported Samples.failed_unreachable
              Samples.planned eq_refl)
    as (st' & rest & Hrun & Hflag & Hlog & _ & Hid & _).
  exists st'. split; [exact Hrun|]. split; [exact Hflag|].
  rewrite Hlog, Hid; by vm_compute.
Defined.

Lemma handlers_agree_on_isExecuting_witness :
  Basic.isExecuting Samples.basic_executing
  = isExecuting (clickExecuteCommands Samples.planned)
  /\ Basic.isExecuting
       (Basic.after_message Samples.failed_unreachable Samples.basic_executing)
     = isExecuting
         (after_message Samples.failed_unreachable
            (clickExecuteCommands Samples.planned)).
Proof.
  split; [reflexivity|].
  apply (handlers_agree_on_isExecuting Samples.failed_unreachable
           Samples.basic_executing (clickExecuteCommands Samples.planned)).
  reflexivity.
Defined.

End MessageFacts.

(** ** The terminal view over time *)

Section TerminalTraceFacts.
Import TerminalView TerminalContent.

Lemma run_app evs1 evs2 st : run (evs1 ++ evs2) st = run evs2 (run evs1 st).
Proof. unfold run. apply fold_left_app. Qed.

(** X1.  Frames from the server reach the terminal in the order they
    arrived and none is lost: after any sequence of frames the terminal
    has been fed what it had been fed before, followed by the text
    frames' payloads one after the other (a binary frame adding
    nothing); no frame is sent back and the socket is as it was. *)
Theorem frames_displayed_in_order frames st :
  display (run (WsMessage <$> frames) st)
  = display st ++ concat (frame_text <$> frames)
  /\ sent (run (WsMessage <$> frames) st) = sent st
  /\ readyState (run (WsMessage <$> frames) st) = readyState st.
Proof.
  revert st. induction frames as [|data frames IH]; intros st.
  - cbn. by rewrite app_nil_r.
  - cbn [fmap list_fmap]. change (run (?ev :: ?evs) st)
      with (run evs (step st ev)).
    destruct (IH (step st (WsMessage data))) as (-> & -> & ->).
    split; [|done]. unfold step, display. cbn -[concat].
    rewrite concat_app. cbn. rewrite app_nil_r, <- app_assoc.
    by destruct data.
Qed.

(** The handler of an event that is not the opening of the socket sends
    nothing and does not open the socket, when it is not open. *)
Lemma step_not_open st ev :
  readyState st <> OPEN -> not_open ev ->
  sent (step st ev) = sent st /\ readyState (step st ev) <> OPEN.
Proof.
  intros Hst Hev. unfold step.
  destruct ev as [rendered fit|fit|data| | |data|fit|fit|command| ]; cbn.
  - by destruct rendered, fit.
  - done.
  - done.
  - done.
  - done.
  - unfold onData. by rewrite bool_decide_false.
  - destruct fit; cbn; [|done]. by rewrite bool_decide_false.
  - destruct fit; cbn; [|done]. by rewrite bool_decide_false.
  - unfold sendCommandToTerminal. by rewrite bool_decide_false.
  - destruct (readyState st) eqn:E; cbn; split; congruence.
Qed.

(** X2.  Until the socket opens nothing is sent, and nothing is kept for
    later either: whatever is typed, run from the chat or resized while
    the socket is connecting, closing or closed leaves the frames sent
    as they were. *)
Theorem nothing_sent_until_open evs st :
  readyState st <> OPEN -> Forall not_open evs ->
  sent (run evs st) = sent st /\ readyState (run evs st) <> OPEN.
Proof.
  revert st. induction evs as [|ev evs IH]; intros st Hst Hevs; [done|].
  apply Forall_cons in Hevs as [Hev Hevs].
  destruct (step_not_open st ev Hst Hev) as [Hsent Hready].
  change (run (ev :: evs) st) with (run evs (step st ev)).
  destruct (IH (step st ev) Hready Hevs) as [-> ?]. by rewrite Hsent.
Qed.

Lemma nothing_sent_until_open_witness :
  sent (run [TermData (str "ls"); ChatCommand (str "show version");
             WindowResize (FitOk 120 40); Unmount]
          (init 80 24)) = [].
Proof.
  apply (nothing_sent_until_open
           [TermData (str "ls"); ChatCommand (str "show version");
            WindowResize (FitOk 120 40); Unmount] (init 80 24)).
  - discriminate.
  - repeat constructor.
Defined.

(** X3.  While the socket is open every piece of terminal input goes out
    as one input frame, in the order typed, with its data unchanged. *)
Theorem keystrokes_sent_in_order keys st :
  readyState st = OPEN ->
  sent (run (TermData <$> keys) st) = sent st ++ (input_message <$> keys)
  /\ readyState (run (TermData <$> keys) st) = OPEN
  /\ written (run (TermData <$> keys) st) = written st.
Proof.
  revert st. induction keys as [|k keys IH]; intros st Hst.
  - cbn. by rewrite app_nil_r.
  - cbn [fmap list_fmap].
    change (run (?ev :: ?evs) st) with (run evs (step st ev)).
    assert (Hstep : step st (TermData k) = ws_send (input_message k) st).
    { unfold step. cbn. unfold onData. by rewrite bool_decide_true. }
    rewrite Hstep. destruct (IH (ws_send (input_message k) st) Hst)
      as (-> & -> & ->).
    cbn. by rewrite <- app_assoc.
Qed.

Lemma keystrokes_sent_in_order_witness :
  sent (run (TermData <$> [str "l"; str "s"; [CR]])
          (step (init 80 24) (WsOpen FitThrows)))
  = [input_message (str "l"); input_message (str "s"); input_message [CR]].
Proof.
  by apply (keystrokes_sent_in_order [str "l"; str "s"; [CR]]
              (step (init 80 24) (WsOpen FitThrows))).
Defined.

End TerminalTraceFacts.

(** ** The AI chat: what the extracted commands are *)

Section ExtractionFacts.
Import AIChat Chat.

Lemma occurs_in_refl s : occurs_in s s.
Proof. exists [], []. by rewrite app_nil_r. Qed.

Lemma occurs_in_trans a b c : occurs_in a b -> occurs_in b c -> occurs_in a c.
Proof.
  intros (p1 & q1 & ->) (p2 & q2 & ->).
  exists (p2 ++ p1), (q1 ++ q2). by rewrite <- !app_assoc.
Qed.

Lemma occurs_in_cons a x s : occurs_in a s -> occurs_in a (x :: s).
Proof. intros (p & q & ->). by exists (x :: p), q. Qed.

Lemma occurs_in_elem x c s : x ∈ c -> occurs_in c s -> x ∈ s.
Proof. intros Hx (p & q & ->). rewrite !elem_of_app. auto. Qed.

Lemma trimStart_suffix s : exists before, s = before ++ trimStart s.
Proof.
  induction s as [|c s [before IH]]; cbn; [by exists []|].
  destruct (is_space c); [|by exists []].
  exists (c :: before). by rewrite IH at 1.
Qed.

Lemma trim_occurs_in s : occurs_in (trim s) s.
Proof.
  unfold trim, trimEnd.
  destruct (trimStart_suffix s) as [before Hs].
  destruct (trimStart_suffix (reverse (trimStart s))) as [after Hr].
  exists before, (reverse after). rewrite Hs at 1. f_equal.
  rewrite <- (reverse_involutive (trimStart s)), Hr at 1.
  by rewrite reverse_app.
Qed.

Lemma strip_prompt_occurs_in ln : occurs_in (strip_prompt ln) ln.
Proof.
  unfold strip_prompt.
  assert (Hrest : forall rest x, occurs_in (trimStart rest) (x :: rest)).
  { intros rest x. destruct (trimStart_suffix rest) as [before H].
    exists (x :: before), []. rewrite app_nil_r. cbn. by rewrite <- H. }
  destruct ln as [|x rest]; [apply occurs_in_refl|].
  repeat (case_match; try apply occurs_in_refl); apply Hrest.
Qed.

Lemma join_lines_occurs_in ls l : l ∈ ls -> occurs_in l (join_lines ls).
Proof.
  induction ls as [|l0 ls IH]; [by intros ?%elem_of_nil|].
  destruct ls as [|l1 ls].
  - intros ->%list_elem_of_singleton. apply occurs_in_refl.
  - change (join_lines (l0 :: l1 :: ls))
      with (l0 ++ LF :: join_lines (l1 :: ls)).
    intros [->|Hl]%elem_of_cons.
    + by exists [], (LF :: join_lines (l1 :: ls)).
    + destruct (IH Hl) as (before & after & ->).
      exists (l0 ++ LF :: before), after. by rewrite <- app_assoc.
Qed.

Lemma split_lines_occurs_in s l : l ∈ split_lines s -> occurs_in l s.
Proof.
  intros Hl%join_lines_occurs_in. by rewrite join_split_lines in Hl.
Qed.

Lemma strip_prefix_app p s r : strip_prefix p s = Some r -> s = p ++ r.
Proof.
  revert s. induction p as [|a p IH]; intros [|b s]; cbn; try done.
  - by intros [= ->].
  - by intros [= ->].
  - destruct (N.eqb_spec a b) as [->|]; [|done].
    intros H. by rewrite (IH _ H).
Qed.

Lemma strip_prefix_ci_suffix p s r :
  strip_prefix_ci p s = Some r -> exists before, s = before ++ r.
Proof.
  revert s. induction p as [|a p IH]; intros [|b s]; cbn; try done.
  - intros [= ->]. by exists [].
  - intros [= ->]. by exists [].
  - destruct (a =? to_lower b); [|done].
    intros [before ->]%IH. by exists (b :: before).
Qed.

Lemma lazy_until_fence_unfold s :
  lazy_until_fence s
  = match strip_prefix fence s with
    | Some _ => Some []
    | None =>
        match s with
        | [] => None
        | c :: s' => cons c <$> lazy_until_fence s'
        end
    end.
Proof. by destruct s. Qed.

Lemma lazy_until_fence_prefix s body :
  lazy_until_fence s = Some body -> exists after, s = body ++ after.
Proof.
  revert body. induction s as [|c s IH]; intros body; [done|].
  rewrite lazy_until_fence_unfold.
  - destruct (strip_prefix fence (c :: s)); [intros [= <-]; by eexists|].
    destruct (lazy_until_fence s) as [b|]; [|done].
    intros [= <-]. destruct (IH b eq_refl) as [after ->]. by exists after.
Qed.

Lemma block_body_occurs_in s body :
  block_body s = Some body -> occurs_in body s.
Proof.
  destruct s as [|c s]; cbn; [done|]. destruct (c =? LF); [|done].
  intros [after ->]%lazy_until_fence_prefix. by exists [c], after.
Qed.

Lemma match_code_block_occurs_in s body len :
  match_code_block s = Some (body, len) -> occurs_in body s.
Proof.
  unfold match_code_block.
  destruct (strip_prefix fence s) as [r|] eqn:Hr; [|done].
  apply strip_prefix_app in Hr as ->.
  assert (Htag : forall tag b,
             strip_prefix_ci tag r ≫= block_body = Some b ->
             occurs_in b (fence ++ r)).
  { intros tag b Hb. destruct (strip_prefix_ci tag r) as [r'|] eqn:Hr'; [|done].
    apply strip_prefix_ci_suffix in Hr' as [before ->].
    apply block_body_occurs_in in Hb.
    eapply occurs_in_trans; [exact Hb|].
    exists (fence ++ before), []. by rewrite app_nil_r, <- app_assoc. }
  destruct (strip_prefix_ci (str "bash") r ≫= block_body) as [b|] eqn:H1.
  { intros [= <- _]. by eapply Htag. }
  destruct (strip_prefix_ci (str "sh") r ≫= block_body) as [b|] eqn:H2.
  { intros [= <- _]. by eapply Htag. }
  destruct (block_body r) as [b|] eqn:H3; [|done].
  intros [= <- _]. apply block_body_occurs_in in H3.
  eapply occurs_in_trans; [exact H3|]. exists fence, []. by rewrite app_nil_r.
Qed.

Lemma exec_code_blocks_occur_in s : forall skip body,
  body ∈ exec_code_blocks skip s -> occurs_in body s.
Proof.
  induction s as [|c s IH]; intros skip body; cbn [exec_code_blocks].
  - by intros ?%elem_of_nil.
  - destruct skip as [|k].
    + destruct (match_code_block (c :: s)) as [[b len]|] eqn:Hm.
      * intros [->|Hb]%elem_of_cons.
        -- by eapply match_code_block_occurs_in.
        -- eapply occurs_in_cons, IH, Hb.
      * intros Hb. eapply occurs_in_cons, IH, Hb.
    + intros Hb. eapply occurs_in_cons, IH, Hb.
Qed.

Lemma rest_of_line_some s r :
  rest_of_line s = Some r -> r = s /\ r <> [] /\ LF ∉ r.
Proof.
  destruct s as [|c s]; [done|]. unfold rest_of_line.
  destruct (forallb _ (c :: s)) eqn:Hall; [|done]. intros [= <-].
  split; [done|]. split; [done|].
  rewrite forallb_forall in Hall. intros Hin%list_elem_of_In.
  by specialize (Hall _ Hin).
Qed.

Lemma spaces_then_rest_suffix s r :
  spaces_then_rest s = Some r ->
  (exists before, s = before ++ r) /\ r <> [] /\ LF ∉ r.
Proof.
  assert (Hrest : forall s', rest_of_line s' = Some r ->
             (exists before, s' = before ++ r) /\ r <> [] /\ LF ∉ r).
  { intros s' (-> & ? & ?)%rest_of_line_some. split; [by exists []|done]. }
  induction s as [|c s IH]; cbn [spaces_then_rest]; [apply Hrest|].
  destruct (is_space c); [|apply Hrest].
  destruct (spaces_then_rest s) as [r'|] eqn:E; [|apply Hrest].
  intros [= ->]. destruct (IH eq_refl) as ([before ->] & ? & ?).
  split; [by exists (c :: before)|done].
Qed.

Lemma prompt_match_some ln c :
  prompt_match ln = Some c -> occurs_in c ln /\ c <> [] /\ LF ∉ c.
Proof.
  unfold prompt_match. destruct ln as [|x ln]; [done|].
  repeat (case_match; try done).
  intros ([before ->] & ? & ?)%spaces_then_rest_suffix.
  split; [|done]. exists (36 :: before), []. by rewrite app_nil_r.
Qed.

Lemma block_commands_some body c :
  c ∈ block_commands body -> occurs_in c body /\ c <> [] /\ LF ∉ c.
Proof.
  intros Hc. destruct (block_command_clean _ _ Hc) as [Hne _].
  unfold block_commands in Hc.
  apply list_elem_of_In, filter_In in Hc as [Hc _].
  apply list_elem_of_In, list_elem_of_fmap in Hc as (ln & -> & Hln).
  assert (Hocc : occurs_in (trim (strip_prompt ln)) ln).
  { eapply occurs_in_trans; [apply trim_occurs_in|apply strip_prompt_occurs_in]. }
  split; [by eapply occurs_in_trans, split_lines_occurs_in|]. split; [done|].
  intros HLF. eapply occurs_in_elem in HLF; [|exact Hocc].
  pose proof (split_lines_no_LF body) as Hall.
  rewrite Forall_forall in Hall. by apply (Hall ln).
Qed.

Lemma collected_commands_some text c :
  c ∈ collected_commands text -> occurs_in c text /\ c <> [] /\ LF ∉ c.
Proof.
  unfold collected_commands.
  intros [Hc|Hc]%elem_of_app.
  - apply list_elem_of_In, in_concat in Hc as (cmds & Hcmds & Hc).
    apply list_elem_of_In in Hcmds, Hc.
    apply list_elem_of_fmap in Hcmds as (body & -> & Hbody).
    destruct (block_commands_some _ _ Hc) as (Hocc & ? & ?).
    split; [|done]. eapply occurs_in_trans; [exact Hocc|].
    by eapply exec_code_blocks_occur_in.
  - apply list_elem_of_omap in Hc as (ln & Hln & Hm).
    destruct (prompt_match_some _ _ Hm) as (Hocc & ? & ?).
    split; [|done]. by eapply occurs_in_trans, split_lines_occurs_in.
Qed.

(** X4.  The chat never makes a command up: every command it extracts
    from a reply stands in the reply, character for character. *)
Theorem extracted_commands_occur_in_reply text :
  Forall (fun c => occurs_in c text) (extractCommandsFromText text).
Proof.
  apply Forall_forall. intros c Hc%extract_collected.
  by destruct (collected_commands_some _ _ Hc) as (? & _).
Qed.

(** X5.  Every extracted command is a single non-empty line: it holds a
    character and no line feed, so that running it from the chat sends
    the terminal one line. *)
Theorem extracted_commands_single_line text :
  Forall (fun c => c <> [] /\ LF ∉ c) (extractCommandsFromText text).
Proof.
  apply Forall_forall. intros c Hc%extract_collected.
  by destruct (collected_commands_some _ _ Hc) as (_ & ? & ?).
Qed.

Lemma dedup_loop_sublist cmds : forall (seen : gset jsstring) unique,
  exists added,
    dedup_loop seen unique cmds = unique ++ added
    /\ added `sublist_of` cmds.
Proof.
  induction cmds as [|c cmds IH]; intros seen unique; cbn.
  - exists []. by rewrite app_nil_r.
  - case_bool_decide.
    + destruct (IH seen unique) as (added & -> & Hsub).
      exists added. split; [done|]. by apply sublist_cons.
    + destruct (IH ({[c]} ∪ seen) (unique ++ [c])) as (added & -> & Hsub).
      exists (c :: added). rewrite <- app_assoc. split; [done|].
      by apply sublist_skip.
Qed.

(** X6.  The extracted list holds no command twice and at most twenty
    commands, and it keeps the order of the reply: it is what is left of
    the commands collected from the code blocks and then from the prompt
    lines when some are struck out. *)
Theorem extracted_commands_distinct_bounded text :
  NoDup (extractCommandsFromText text)
  /\ (length (extractCommandsFromText text) <= 20)%nat
  /\ extractCommandsFromText text `sublist_of` collected_commands text.
Proof.
  split; [apply extract_NoDup|]. split; [apply extract_length|].
  unfold extractCommandsFromText. destruct text as [|x text].
  - apply sublist_nil_l.
  - etrans; [apply sublist_take|].
    destruct (dedup_loop_sublist (collected_commands (x :: text)) ∅ [])
      as (added & -> & Hsub).
    done.
Qed.

End ExtractionFacts.

(** ** The AI chat: context and automatic runs *)

Section ChatFacts.
Import AIChat Chat TerminalView.

Lemma send_commands_open cmds : forall term,
  readyState term = OPEN ->
  let term' := fold_left (fun t c => sendCommandToTerminal c t) cmds term in
  sent term' = sent term ++ ((fun c => input_message (c ++ [LF])) <$> cmds)
  /\ written term' = written term
  /\ readyState term' = OPEN.
Proof.
  induction cmds as [|c cmds IH]; intros term Hopen; cbn.
  - by rewrite app_nil_r.
  - assert (Hsend : sendCommandToTerminal c term
                    = ws_send (input_message (c ++ [LF])) term).
    { unfold sendCommandToTerminal. by rewrite bool_decide_true. }
    rewrite Hsend.
    destruct (IH (ws_send (input_message (c ++ [LF])) term) Hopen)
      as (-> & -> & ->).
    cbn. by rewrite <- app_assoc.
Qed.

Lemma fold_left_filter {A B} (f : B -> A -> B) (ok : A -> bool) l : forall b,
  fold_left (fun b x => if ok x then f b x else b) l b
  = fold_left f (List.filter ok l) b.
Proof.
  induction l as [|x l IH]; intros b; cbn; [done|].
  destruct (ok x); cbn; by rewrite IH.
Qed.

Lemma extract_sublist_collected text :
  extractCommandsFromText text `sublist_of` collected_commands text.
Proof.
  unfold extractCommandsFromText. destruct text as [|x text].
  - apply sublist_nil_l.
  - etrans; [apply sublist_take|].
    by destruct (dedup_loop_sublist (collected_commands (x :: text)) ∅ [])
      as (added & -> & Hsub).
Qed.

(** X7.  With the terminal's socket open, the automatic run that follows
    a reply sends the terminal exactly the extracted commands the user
    agreed to (all of them when no confirmation is asked), each as one
    input frame ending in a line feed, in the order in which
    [extractCommandsFromText] lists them, which puts the commands of
    code blocks before those of prompt lines wherever they stand in the
    reply; with automatic runs switched off it sends nothing.  Nothing
    is written to the terminal by the chat itself. *)
Theorem auto_run_sends_agreed_commands s confirm reply term :
  readyState term = OPEN ->
  let agreed c :=
    negb (confirmBeforeRun s)
    || confirm (str "Run command?" ++ [LF; LF] ++ c) in
  let chosen :=
    if autoRun s then List.filter agreed (extractCommandsFromText reply)
    else [] in
  let term' :=
    autoRunCommands s confirm (Some sendCommandToTerminal) reply term in
  sent term' = sent term ++ ((fun c => input_message (c ++ [LF])) <$> chosen)
  /\ written term' = written term
  /\ chosen `sublist_of` extractCommandsFromText reply
  /\ chosen `sublist_of` collected_commands reply.
Proof.
  intros Hopen agreed chosen term'.
  assert (Horder : forall l, l `sublist_of` extractCommandsFromText reply ->
                             l `sublist_of` collected_commands reply).
  { intros l Hl. etrans; [exact Hl|]. apply extract_sublist_collected. }
  cut (sent term'
       = sent term ++ ((fun c => input_message (c ++ [LF])) <$> chosen)
       /\ written term' = written term
       /\ chosen `sublist_of` extractCommandsFromText reply).
  { intros (? & ? & ?). auto. }
  clear Horder. subst term' chosen.
  unfold autoRunCommands. destruct (autoRun s).
  - pose proof (fold_left_filter (fun t c => sendCommandToTerminal c t)
                  agreed (extractCommandsFromText reply) term) as Hfold.
    destruct (send_commands_open
                (List.filter agreed (extractCommandsFromText reply)) term Hopen)
      as (Hsent & Hwritten & _).
    cbv zeta in Hsent, Hwritten. rewrite <- Hfold in Hsent, Hwritten.
    split; [exact Hsent|]. split; [exact Hwritten|].
    rewrite (filter_callback (fun c => agreed c = true)); [|done].
    apply sublist_filter.
  - cbn. rewrite app_nil_r. split; [done|]. split; [done|].
    apply sublist_nil_l.
Qed.

Lemma auto_run_sends_agreed_commands_witness :
  sent
    (autoRunCommands
       {| smartContext := true; autoContext := false; contextLines := 20;
          includeCommands := true; includeErrors := true;
          autoSendOnError := false; autoRun := true;
          confirmBeforeRun := true |}
       (fun question => includes (str "route") question)
       (Some sendCommandToTerminal) Samples.reply
       (step (init 80 24) (WsOpen FitThrows)))
  = [input_message (str "show ip route" ++ [LF])].
Proof.
  destruct (auto_run_sends_agreed_commands
    {| smartContext := true; autoContext := false; contextLines := 20;
       includeCommands := true; includeErrors := true;
       autoSendOnError := false; autoRun := true;
       confirmBeforeRun := true |}
    (fun question => includes (str "route") question)
    Samples.reply (step (init 80 24) (WsOpen FitThrows)) eq_refl)
    as (Hsent & _).
  rewrite Hsent. by vm_compute.
Defined.

(** A prompt line above a code block is run after the block. *)
Example auto_run_blocks_first :
  sent
    (autoRunCommands
       {| smartContext := true; autoContext := false; contextLines := 20;
          includeCommands := true; includeErrors := true;
          autoSendOnError := false; autoRun := true;
          confirmBeforeRun := false |}
       (fun _ => false) (Some sendCommandToTerminal)
       (join_lines [str "$ first"; fence; str "second"; fence])
       (step (init 80 24) (WsOpen FitThrows)))
  = [input_message (str "second" ++ [LF]);
     input_message (str "first" ++ [LF])].
Proof. by vm_compute. Qed.

Lemma slice_from_last {A} (n : Z) (l : list A) :
  (0 < n)%Z -> (length (slice_from (- n) l) <= Z.to_nat n)%nat.
Proof.
  intros Hn. unfold slice_from.
  destruct (Z.ltb_spec (- n) 0); [|lia].
  rewrite length_drop, Z.opp_involutive. lia.
Qed.

Lemma context_loop toLowerCase s lines : forall acc,
  (length acc + length lines <= Z.to_nat (contextLines s))%nat ->
  fold_left (context_step toLowerCase s) lines acc
  = acc ++ filter (fun l => trim l <> []) lines.
Proof.
  induction lines as [|line lines IH]; intros acc Hlen; cbn [fold_left].
  - by rewrite app_nil_r.
  - rewrite filter_cons. cbn [length] in Hlen.
    unfold context_step at 2. destruct (trim line) as [|c t] eqn:Ht.
    + rewrite decide_False by (by intros []). apply IH. lia.
    + rewrite decide_True by done.
      assert (Hroom : (Z.of_nat (length acc) <? contextLines s)%Z = true).
      { apply Z.ltb_lt. lia. }
      rewrite Hroom.
      assert (Hpush : forall b1 b2 : bool,
                 (if b1 then acc ++ [line]
                  else if b2 then acc ++ [line] else acc ++ [line])
                 = acc ++ [line]).
      { by intros [] []. }
      rewrite Hpush, IH by (rewrite length_app; cbn; lia).
      by rewrite <- app_assoc.
Qed.

(** X8.  With smart context on and a positive number of context lines,
    the context sent along is the non-blank lines among the last so many
    lines of the terminal content, as they are and in order: whether
    commands or errors are to be included, and what counts as one, makes
    no difference to it. *)
Theorem smart_context_is_recent_lines toLowerCase s content :
  smartContext s = true -> (0 < contextLines s)%Z ->
  getSmartContext toLowerCase s content
  = join_lines
      (filter (fun l => trim l <> [])
         (slice_from (- contextLines s) (split_lines content))).
Proof.
  intros Hsmart Hn. unfold getSmartContext. rewrite Hsmart. cbn [negb].
  rewrite (context_loop toLowerCase s _ [])
    by (cbn [length]; apply slice_from_last; lia).
  destruct content as [|c content]; [|done].
  cbn [split_lines]. unfold slice_from.
  destruct (Z.ltb_spec (- contextLines s) 0); [|lia].
  replace (length [[]] - Z.to_nat (- - contextLines s))%nat with 0%nat
    by (cbn [length]; lia).
  by vm_compute.
Qed.

Lemma smart_context_is_recent_lines_witness :
  getSmartContext (fmap to_lower) Chat.initial_settings
    (join_lines [str "$ show clock"; str ""; str "12:00:01 UTC"; str "   "])
  = join_lines [str "$ show clock"; str "12:00:01 UTC"].
Proof.
  rewrite (smart_context_is_recent_lines (fmap to_lower)
             Chat.initial_settings) by done.
  by vm_compute.
Defined.

End ChatFacts.

(** ** The command executor: selecting, submitting, clearing *)

Section PanelFacts.
Import Executor ExecutorPanel.

Lemma filter_all {A} (f : A -> bool) (l : list A) :
  (forall x, x ∈ l -> f x = true) -> List.filter f l = l.
Proof.
  induction l as [|x l IH]; intros Hall; cbn; [done|].
  rewrite (Hall x) by left. rewrite IH; [done|].
  intros y Hy. apply Hall. by right.
Qed.

(** X9.  A checkbox of the command lists does what it shows: after a
    toggle the command is selected exactly when the box was checked, the
    other commands are selected as before, unchecking takes every
    occurrence of the command out and leaves the rest in order, and
    checking a command that was not selected and unchecking it again
    gives the selection back. *)
Theorem command_toggle c checked st :
  command_checked c (handleCommandToggle c checked st) = checked
  /\ (forall c', c' <> c ->
        command_checked c' (handleCommandToggle c checked st)
        = command_checked c' st)
  /\ selectedCommands (handleCommandToggle c false st)
     = filter (fun cmd => cmd <> c) (selectedCommands st)
  /\ (c ∉ selectedCommands st ->
      selectedCommands
        (handleCommandToggle c false (handleCommandToggle c true st))
      = selectedCommands st).
Proof.
  assert (Hoff : forall l : list jsstring,
             List.filter (fun cmd => negb (bool_decide (cmd = c))) l
             = filter (fun cmd => cmd <> c) l).
  { intros l. apply filter_callback. intros x.
    by rewrite negb_true_iff, bool_decide_eq_false. }
  unfold command_checked. split; [|split; [|split]].
  - destruct checked; cbn.
    + apply bool_decide_eq_true. rewrite elem_of_app. right. by left.
    + apply bool_decide_eq_false. rewrite Hoff, list_elem_of_filter. tauto.
  - intros c' Hc'. apply bool_decide_ext. destruct checked; cbn.
    + rewrite elem_of_app, list_elem_of_singleton. tauto.
    + rewrite Hoff, list_elem_of_filter. tauto.
  - apply Hoff.
  - intros Hc. cbn. rewrite Hoff, filter_app.
    rewrite filter_cons, decide_False by tauto. rewrite filter_nil, app_nil_r.
    rewrite <- Hoff. apply filter_all. intros x Hx.
    apply negb_true_iff, bool_decide_eq_false. by intros ->.
Qed.

Lemma clearRanCommands_selected st :
  selectedCommands (clearRanCommands st)
  = filter (fun c => c ∉ commands_of (execution st)) (selectedCommands st).
Proof.
  unfold clearRanCommands. cbn. apply filter_callback. intros c.
  by rewrite negb_true_iff, bool_decide_eq_false, elem_of_list_to_set.
Qed.

Lemma clearRanCommands_custom st :
  customCommands (clearRanCommands st)
  = match execution st with
    | None => customCommands st
    | Some _ =>
        join_lines
          (filter (fun l => trim l ∉ commands_of (execution st))
             (split_lines (customCommands st)))
    end.
Proof.
  unfold clearRanCommands. cbn. destruct (execution st); [|done]. f_equal.
  apply filter_callback. intros c.
  by rewrite negb_true_iff, bool_decide_eq_false, elem_of_list_to_set.
Qed.

(** X10.  Through clicks on the command checkboxes, Clear All, Clear Ran
    Commands and arriving executions, the selection never holds a
    command twice when it did not hold one twice before, as at the
    start, when it is empty. *)
Theorem selection_stays_duplicate_free evs st :
  NoDup (selectedCommands st) ->
  NoDup (selectedCommands (fold_left selection_step evs st)).
Proof.
  revert st. induction evs as [|ev evs IH]; intros st Hst; [done|].
  cbn [fold_left]. apply IH. destruct ev as [c| | |e]; cbn [selection_step].
  - unfold clickCommandCheckbox, command_checked.
    case_bool_decide as Hc; cbn.
    + eapply sublist_NoDup; [exact Hst|].
      rewrite (filter_callback (fun cmd => cmd <> c)).
      * apply sublist_filter.
      * intros x. by rewrite negb_true_iff, bool_decide_eq_false.
    + apply NoDup_app. split; [done|]. split; [|apply NoDup_singleton].
      by intros x Hx ->%list_elem_of_singleton.
  - constructor.
  - unfold clickClearRanCommands.
    destruct (commands_of (execution st)); [done|].
    rewrite clearRanCommands_selected.
    eapply sublist_NoDup; [exact Hst | apply sublist_filter].
  - done.
Qed.

Lemma selection_stays_duplicate_free_witness :
  NoDup
    (selectedCommands
       (fold_left selection_step
          [ClickCommand (str "show clock"); ClickCommand (str "show version");
           ExecutionFetched Samples.ran_version; ClickClearRan;
           ClickCommand (str "show clock")]
          Samples.fresh)).
Proof.
  apply (selection_stays_duplicate_free
           [ClickCommand (str "show clock"); ClickCommand (str "show version");
            ExecutionFetched Samples.ran_version; ClickClearRan;
            ClickCommand (str "show clock")]
           Samples.fresh).
  apply (bool_decide_unpack _). by vm_compute.
Defined.

(** X11.  What Execute Commands submits from the custom commands box is
    its non-blank lines as typed, in order, after the selected commands;
    the number shown as selected is the number of commands submitted,
    and with nothing to submit the click asks for a command instead and
    leaves the executing flag alone. *)
Theorem execute_submits_nonblank_lines st :
  isExecuting st = false ->
  let lines := filter (fun l => trim l <> []) (split_lines (customCommands st)) in
  let all := selectedCommands st ++ lines in
  let st' := clickExecuteCommands st in
  commands_selected st = length all
  /\ lines `sublist_of` split_lines (customCommands st)
  /\ (all <> [] ->
      log st' = log st ++ [Http (PostExecute all)] /\ isExecuting st' = true)
  /\ (all = [] ->
      log st'
      = log st
        ++ [Toast error (str "Please select or enter at least one command")]
      /\ isExecuting st' = false).
Proof.
  intros Hidle lines all st'.
  assert (Hlines : custom_lines (customCommands st) = lines).
  { unfold custom_lines. apply filter_callback. intros l.
    by destruct (trim l). }
  subst st'. unfold clickExecuteCommands, handleExecuteCommands,
    commands_selected.
  rewrite Hidle, Hlines. fold all.
  split; [unfold all; by rewrite length_app|]. split; [apply sublist_filter|].
  split.
  - intros Hall. by destruct all.
  - by intros ->.
Qed.

Lemma execute_submits_nonblank_lines_witness :
  isExecuting Samples.fresh = false
  /\ log (clickExecuteCommands Samples.fresh)
     = [Http (PostExecute [str "show version"; str "show interfaces";
                           str "show ip route"; str "  show version  ";
                           str "show clock"])]
  /\ commands_selected Samples.fresh = 5%nat.
Proof.
  split; [reflexivity|].
  destruct (execute_submits_nonblank_lines Samples.fresh eq_refl)
    as (Hcount & _ & Hsome & _).
  destruct Hsome as [Hlog _]; [by vm_compute|].
  split; [rewrite Hlog | rewrite Hcount]; by vm_compute.
Defined.

Lemma click_execute_posts st :
  isExecuting st = false ->
  selectedCommands st ++ custom_lines (customCommands st) <> [] ->
  clickExecuteCommands st
  = perform
      (Http (PostExecute
               (selectedCommands st ++ custom_lines (customCommands st))))
      (setIsExecuting true st).
Proof.
  intros Hidle Hall. unfold clickExecuteCommands, handleExecuteCommands.
  rewrite Hidle.
  by destruct (selectedCommands st ++ custom_lines (customCommands st)).
Qed.

Lemma requests_of_app l1 l2 :
  requests_of (l1 ++ l2) = requests_of l1 ++ requests_of l2.
Proof. apply omap_app. Qed.

(** X12.  A click on Execute Commands while its request is in flight
    does nothing, and a request that fails gives the button back with
    the selection and the custom commands untouched, so that the next
    click submits the same commands again. *)
Theorem failed_submission_can_be_retried st :
  isExecuting st = false ->
  selectedCommands st ++ custom_lines (customCommands st) <> [] ->
  let all := selectedCommands st ++ custom_lines (customCommands st) in
  let st1 := clickExecuteCommands st in
  let st2 := executeSettled None st1 in
  clickExecuteCommands st1 = st1
  /\ isExecuting st2 = false
  /\ selectedCommands st2 = selectedCommands st
  /\ customCommands st2 = customCommands st
  /\ execution st2 = execution st
  /\ requests_of (log (clickExecuteCommands st2))
     = requests_of (log st) ++ [PostExecute all; PostExecute all].
Proof.
  intros Hidle Hall all st1 st2.
  assert (Hst1 : st1 = perform (Http (PostExecute all)) (setIsExecuting true st))
    by by apply click_execute_posts.
  assert (Hfields :
    isExecuting st2 = false
    /\ selectedCommands st2 = selectedCommands st
    /\ customCommands st2 = customCommands st
    /\ execution st2 = execution st
    /\ log st2
       = log st ++ [Http (PostExecute all)]
         ++ [ConsoleError (str "Error executing commands:")]
         ++ [Toast error (str "Failed to start command execution")]).
  { subst st2. rewrite Hst1. repeat split.
    unfold executeSettled, perform, setIsExecuting. cbn [log].
    by rewrite <- !app_assoc. }
  destruct Hfields as (Hidle2 & Hsel2 & Hcustom2 & Hexec2 & Hlog2).
  split; [by rewrite Hst1|]. do 4 (split; [done|]).
  rewrite click_execute_posts by (by rewrite ?Hsel2, ?Hcustom2).
  rewrite Hsel2, Hcustom2. fold all.
  change (log (perform ?e ?s)) with (log s ++ [e]).
  change (log (setIsExecuting true st2)) with (log st2).
  rewrite Hlog2, !requests_of_app. cbn. by rewrite <- !app_assoc.
Qed.

Lemma failed_submission_can_be_retried_witness :
  requests_of
    (log (clickExecuteCommands
            (executeSettled None (clickExecuteCommands Samples.planned))))
  = [PostExecute [str "show version"; str "show interfaces";
                  str "show ip route"; str "  show version  ";
                  str "show clock"];
     PostExecute [str "show version"; str "show interfaces";
                  str "show ip route"; str "  show version  ";
                  str "show clock"]].
Proof.
  destruct (failed_submission_can_be_retried Samples.planned eq_refl)
    as (_ & _ & _ & _ & _ & Hlog); [by vm_compute|].
  rewrite Hlog. by vm_compute.
Defined.

End PanelFacts.

(** ** The command executor: plans, live outputs, clearing after a run *)

Section RunFacts.
Import Executor ExecutorPanel.

Lemma run_plan_all_checked st :
  aiSteps st <> [] ->
  (forall s, s ∈ aiSteps st -> selected (aiSelected st) s = true) ->
  clickRunPlan st
  = perform (Http (PostExecute (command <$> aiSteps st)))
      (setIsExecuting true st).
Proof.
  intros Hsteps Hall. unfold clickRunPlan, runPlan.
  rewrite filter_all by done.
  destruct (aiSteps st) as [|s steps]; [done|]. done.
Qed.

Lemma select_all_checked steps s :
  s ∈ steps -> selected (select_all steps) s = true.
Proof. intros Hs. unfold select_all. apply select_all_lookup. by left. Qed.

(** X13.  A plan that has just arrived has every step ticked, and so has
    a plan after Select All: Run Plan then submits the commands of all
    its steps, in the order of the plan.  After Clear, Run Plan submits
    the steps whose id is the name of a member every object inherits,
    such as [constructor], and shows them ticked; with no such id in the
    plan it submits nothing. *)
Theorem run_plan_after_select_all steps st :
  steps <> [] ->
  requests_of (log (clickRunPlan (planSettled (Some steps) st)))
  = requests_of (log st) ++ [PostExecute (command <$> steps)]
  /\ (aiSteps st = steps ->
      requests_of (log (clickRunPlan (selectAllSteps st)))
      = requests_of (log st) ++ [PostExecute (command <$> steps)]
      /\ requests_of (log (clickRunPlan (clearSteps st)))
         = requests_of (log st)
           ++ match
                filter (fun s => Obj.inherited (step_id s) = true) steps
              with
              | [] => []
              | kept => [PostExecute (command <$> kept)]
              end
      /\ (forall s, checkbox_checked (aiSelected (clearSteps st)) s
                    = Obj.inherited (step_id s))).
Proof.
  intros Hsteps. split.
  - rewrite run_plan_all_checked.
    + change (log (perform ?e ?s)) with (log s ++ [e]).
      change (log (setIsExecuting true ?s)) with (log s).
      change (log (planSettled (Some steps) st))
        with (log st ++ [Toast success (str "Plan ready")]).
      rewrite !requests_of_app. cbn. by rewrite app_nil_r.
    + done.
    + intros s Hs. by apply select_all_checked.
  - intros Hst. split; [|split].
    + rewrite run_plan_all_checked.
      * change (log (perform ?e ?s)) with (log s ++ [e]).
        change (log (setIsExecuting true ?s)) with (log s).
        rewrite requests_of_app. cbn. by rewrite Hst.
      * cbn. by rewrite Hst.
      * intros s Hs. by apply select_all_checked.
    + unfold clickRunPlan, runPlan.
      change (aiSteps (clearSteps st)) with (aiSteps st).
      change (aiSelected (clearSteps st)) with (∅ : gmap jsstring bool).
      rewrite Hst.
      assert (Hkept : List.filter (selected ∅) steps
                      = filter (fun s => Obj.inherited (step_id s) = true)
                          steps).
      { apply filter_callback. intros s.
        unfold selected, selected_value, Obj.get. rewrite lookup_empty.
        by destruct (Obj.inherited (step_id s)). }
      rewrite Hkept. destruct steps as [|s0 steps']; [congruence|].
      destruct (filter _ (s0 :: steps')) as [|k kept].
      * cbn [fmap list_fmap].
        change (log (perform ?e ?s)) with (log s ++ [e]).
        rewrite requests_of_app. reflexivity.
      * cbn [fmap list_fmap].
        change (log (perform ?e ?s)) with (log s ++ [e]).
        change (log (setIsExecuting true (clearSteps st))) with (log st).
        by rewrite requests_of_app.
    + intros s. apply clear_unchecks_all.
Qed.

Lemma run_plan_after_select_all_witness :
  requests_of
    (log (clickRunPlan
            (planSettled (Some [Samples.bgp_step; Samples.route_step])
               Samples.fresh)))
  = [PostExecute [str "show ip bgp summary"; str "show ip route"]].
Proof.
  destruct (run_plan_after_select_all
              [Samples.bgp_step; Samples.route_step] Samples.fresh)
    as [Hrun _]; [done|].
  rewrite Hrun. by vm_compute.
Defined.

(** A plan with a step called [constructor]: after Clear that step is
    still run. *)
Example run_plan_after_clear_inherited_id :
  let odd :=
    {| step_id := str "constructor"; description := str "Show the clock";
       command := str "show clock" |} in
  requests_of
    (log (clickRunPlan
            (clearSteps (planSettled (Some [Samples.bgp_step; odd])
                           Samples.fresh))))
  = [PostExecute [str "show clock"]].
Proof. by vm_compute. Qed.

(** X14.  Asking for a plan with a goal that is not blank posts one plan
    request and puts the old plan away at once: until the answer is in,
    Plan does nothing and there is no Run Plan to click; when the
    request fails the list of steps stays empty.  However the request
    ends, the planning mark is taken off.  A blank goal posts nothing. *)
Theorem planning_puts_old_plan_away st :
  aiPlanning st = false ->
  let st1 := clickPlan st in
  (trim (aiGoal st) <> [] ->
     requests_of (log st1)
     = requests_of (log st) ++ [PostPlan (aiGoal st) (aiAssumeSudo st)]
     /\ clickPlan st1 = st1
     /\ clickRunPlan st1 = st1
     /\ aiSteps (planSettled None st1) = []
     /\ (forall r, aiPlanning (planSettled r st1) = false))
  /\ (trim (aiGoal st) = [] ->
      requests_of (log st1) = requests_of (log st)
      /\ aiSteps st1 = aiSteps st
      /\ aiSelected st1 = aiSelected st).
Proof.
  intros Hidle st1.
  assert (Hclick : st1 = requestPlan st).
  { subst st1. unfold clickPlan. by rewrite Hidle. }
  rewrite Hclick. clear Hclick st1. unfold requestPlan.
  destruct (trim (aiGoal st)) as [|c goal] eqn:Hgoal.
  - split; [done|]. intros _.
    change (log (setAiPlanning false ?s)) with (log s).
    change (log (perform ?e ?s)) with (log s ++ [e]).
    rewrite requests_of_app. cbn. by rewrite app_nil_r.
  - split; [|done]. intros _.
    change (log (perform ?e ?s)) with (log s ++ [e]).
    rewrite requests_of_app. split; [done|]. split; [done|].
    split; [done|]. split; [done|]. by intros [].
Qed.

Lemma planning_puts_old_plan_away_witness :
  aiPlanning Samples.planned = false
  /\ clickRunPlan (clickPlan Samples.planned) = clickPlan Samples.planned.
Proof.
  split; [reflexivity|].
  destruct (planning_puts_old_plan_away Samples.planned eq_refl)
    as [Hgoal _].
  destruct Hgoal as (_ & _ & Hrun & _); [by vm_compute|]. exact Hrun.
Defined.

Lemma after_started_message st :
  after_message started_message st
  = setLiveOutputs ∅
      (perform (Toast info (str "Command execution started")) st).
Proof. reflexivity. Qed.

Lemma after_progress_message cmd status output st :
  after_message (progress_message cmd status output) st
  = setLiveOutputs
      (progress_update (JStr cmd) (JStr (str status))
         (match output with Some out => JStr out | None => JUndefined end)
         (liveOutputs st))
      st.
Proof. by destruct output. Qed.

Lemma after_command_messages run st :
  after_messages (command_messages run) st
  = setLiveOutputs (Obj.set (liveOutputs st) run.1 run.2) st.
Proof.
  destruct run as [cmd out]. unfold command_messages, after_messages.
  cbn [fold_left fst snd]. rewrite !after_progress_message.
  cbn [liveOutputs setLiveOutputs].
  assert (Hstarted : forall m : gmap jsstring jsstring,
            progress_update (JStr cmd) (JStr (str "started")) JUndefined m
            = if Obj.has m cmd then m else Obj.set m cmd []).
  { intros m. unfold progress_update. cbn [ToString].
    replace (is_str (JStr (str "started")) "started")
      with true by (symmetry; by apply is_str_true).
    rewrite !(is_str_other "started") by (by vm_compute).
    by destruct (Obj.has m cmd). }
  assert (Hcompleted : forall m : gmap jsstring jsstring,
            progress_update (JStr cmd) (JStr (str "completed")) (JStr out) m
            = Obj.set m cmd out).
  { intros m. unfold progress_update. cbn [ToString typeof_string].
    rewrite (is_str_other "completed" "started") by (by vm_compute).
    replace (is_str (JStr (str "completed")) "completed")
      with true by (symmetry; by apply is_str_true).
    done. }
  rewrite Hstarted, Hcompleted.
  change (setLiveOutputs ?m (setLiveOutputs _ st)) with (setLiveOutputs m st).
  f_equal. destruct (Obj.has (liveOutputs st) cmd) eqn:Hhas; [done|].
  apply orb_false_iff in Hhas as [_ Hinh].
  rewrite !set_not_inherited by done. apply insert_insert_eq.
Qed.

Lemma after_messages_app msgs1 msgs2 st :
  after_messages (msgs1 ++ msgs2) st
  = after_messages msgs2 (after_messages msgs1 st).
Proof. apply fold_left_app. Qed.

Lemma after_runs runs : forall st,
  liveOutputs (after_messages (concat (command_messages <$> runs)) st)
  = fold_left (fun m run => Obj.set m run.1 run.2) runs (liveOutputs st)
  /\ isExecuting (after_messages (concat (command_messages <$> runs)) st)
     = isExecuting st
  /\ log (after_messages (concat (command_messages <$> runs)) st) = log st.
Proof.
  induction runs as [|run runs IH]; intros st; [done|].
  cbn [fmap list_fmap concat]. rewrite after_messages_app.
  rewrite after_command_messages.
  destruct (IH (setLiveOutputs (Obj.set (liveOutputs st) run.1 run.2) st))
    as (-> & -> & ->).
  done.
Qed.

(** X15.  Over an execution as the server reports it, a start message
    and then, command after command, a started and a completed message,
    the live outputs hold nothing from before the start and, for each
    command, the output assigned last: that of its last run, except that
    an output assigned to a command called [__proto__] is not stored.  A
    command that was not reported shows as pending, unless its name is
    that of a member every object inherits, which is then what the panel
    is given to show.  The messages leave the executing flag alone and
    raise the one toast of the start. *)
Theorem live_outputs_follow_execution runs st :
  let st' :=
    after_messages
      (started_message :: concat (command_messages <$> runs)) st in
  liveOutputs st' = fold_left (fun m run => Obj.set m run.1 run.2) runs ∅
  /\ (Forall (fun run => run.1 <> str "__proto__") runs ->
      liveOutputs st' = fold_left (fun m run => <[run.1 := run.2]> m) runs ∅)
  /\ (forall cmd, cmd ∉ runs.*1 ->
        live_output cmd st'
        = if Obj.inherited cmd then InheritedMember else Pending)
  /\ isExecuting st' = isExecuting st
  /\ log st' = log st ++ [Toast info (str "Command execution started")].
Proof.
  intros st'. subst st'.
  change (after_messages (started_message :: ?msgs) st)
    with (after_messages msgs (after_message started_message st)).
  rewrite after_started_message.
  destruct (after_runs runs
              (setLiveOutputs ∅
                 (perform (Toast info (str "Command execution started")) st)))
    as (Hlive & -> & ->).
  split; [exact Hlive|]. split; [|split; [|done]].
  - intros Hruns. rewrite Hlive. cbn [liveOutputs setLiveOutputs].
    clear Hlive. generalize (∅ : gmap jsstring jsstring).
    induction Hruns as [|run runs Hrun _ IH]; intros m; [done|].
    cbn [fold_left]. rewrite IH. f_equal. unfold Obj.set.
    by rewrite (bool_decide_false _ Hrun).
  - intros cmd Hcmd. unfold live_output. rewrite Hlive.
    cbn [liveOutputs setLiveOutputs].
    assert (Hnone : forall m : gmap jsstring jsstring,
              fold_left (fun m run => Obj.set m run.1 run.2) runs m !! cmd
              = m !! cmd).
    { clear Hlive. induction runs as [|run runs IH]; intros m; [done|].
      cbn [fold_left]. rewrite fmap_cons, not_elem_of_cons in Hcmd.
      destruct Hcmd as [Hne Hcmd]. rewrite IH by done.
      by apply set_other. }
    unfold Obj.get. rewrite Hnone, lookup_empty.
    by destruct (Obj.inherited cmd).
Qed.

(** A command called [toString] that the server never reported does not
    show as pending. *)
Example unreported_inherited_name_not_pending :
  live_output (str "toString")
    (after_messages [started_message] Samples.planned)
  = InheritedMember.
Proof. by vm_compute. Qed.

End RunFacts.

(** ** The command executor: clearing what was run *)

Section ClearFacts.
Import Executor ExecutorPanel.

Lemma filter_filter_same {A} (P : A -> Prop) `{!forall x, Decision (P x)}
    (l : list A) :
  filter P (filter P l) = filter P l.
Proof.
  induction l as [|x l IH]; [done|]. rewrite filter_cons.
  destruct (decide (P x)) as [HP|HP]; [|done].
  by rewrite filter_cons, decide_True, IH.
Qed.

Lemma filter_none {A} (P : A -> Prop) `{!forall x, Decision (P x)}
    (l : list A) :
  (forall x, x ∈ l -> ~ P x) -> filter P l = [].
Proof.
  induction l as [|x l IH]; intros Hl; [done|].
  rewrite filter_cons, decide_False by (apply Hl; by left).
  apply IH. intros y Hy. apply Hl. by right.
Qed.

(** X16.  Clear Ran Commands after a run of what Execute Commands
    submitted empties the selection, and leaves in the custom commands
    box only lines that are blank or that carry blanks around their
    command: a custom command typed without blanks around it and run is
    cleared. *)
Theorem clear_after_run st e :
  execution st = Some e ->
  commands e
  = Some (selectedCommands st ++ custom_lines (customCommands st)) ->
  selectedCommands (clearRanCommands st) = []
  /\ Forall (fun l => trim l = [] \/ trim l <> l)
       (split_lines (customCommands (clearRanCommands st))).
Proof.
  intros He Hcmds.
  assert (Hran : commands_of (execution st)
                 = selectedCommands st ++ custom_lines (customCommands st)).
  { rewrite He. cbn. by rewrite Hcmds. }
  split.
  - rewrite clearRanCommands_selected, Hran. apply filter_none.
    intros c Hc Hnot. apply Hnot. rewrite elem_of_app. by left.
  - rewrite clearRanCommands_custom, Hran, He.
    set (ran := selectedCommands st ++ custom_lines (customCommands st)).
    set (kept := filter (fun l => trim l ∉ ran)
                   (split_lines (customCommands st))).
    destruct (decide (kept = [])) as [Hnil|Hkept].
    + rewrite Hnil. cbn. constructor; [by left | constructor].
    + rewrite split_join_lines; [|done|].
      * apply Forall_forall. intros l Hl.
        apply list_elem_of_filter in Hl as [Hnot Hl].
        destruct (decide (trim l = [])) as [|Hblank]; [by left|]. right.
        intros Heq. apply Hnot. rewrite Heq. unfold ran.
        rewrite elem_of_app. right. unfold custom_lines.
        apply list_elem_of_In, filter_In. split; [by apply list_elem_of_In|].
        by destruct (trim l).
      * apply Forall_forall. intros l Hl.
        eapply elem_of_sublist in Hl; [|apply sublist_filter].
        revert l Hl. apply Forall_forall, split_lines_no_LF.
Qed.

Lemma clear_after_run_witness :
  selectedCommands
    (clearRanCommands
       (setExecution
          (Some {| exec_id := str "e2"; status := str "completed";
                   commands :=
                     Some [str "show version"; str "show interfaces";
                           str "show ip route"; str "  show version  ";
                           str "show clock"];
                   raw_outputs := None |})
          Samples.fresh))
  = [].
Proof.
  by destruct (clear_after_run
    (setExecution
       (Some {| exec_id := str "e2"; status := str "completed";
                commands :=
                  Some [str "show version"; str "show interfaces";
                        str "show ip route"; str "  show version  ";
                        str "show clock"];
                raw_outputs := None |})
       Samples.fresh)
    {| exec_id := str "e2"; status := str "completed";
       commands :=
         Some [str "show version"; str "show interfaces";
               str "show ip route"; str "  show version  ";
               str "show clock"];
       raw_outputs := None |}
    eq_refl eq_refl) as [Hsel _].
Defined.

(** X17.  Clear Ran Commands a second time changes neither the
    selection nor the custom commands: what the first click left is
    already clear of the commands that were run. *)
Theorem clear_ran_commands_twice st :
  selectedCommands (clearRanCommands (clearRanCommands st))
  = selectedCommands (clearRanCommands st)
  /\ customCommands (clearRanCommands (clearRanCommands st))
     = customCommands (clearRanCommands st)
  /\ execution (clearRanCommands (clearRanCommands st)) = execution st.
Proof.
  assert (Hexec : execution (clearRanCommands st) = execution st) by done.
  split; [|split; [|done]].
  - rewrite (clearRanCommands_selected (clearRanCommands st)), Hexec.
    rewrite clearRanCommands_selected. apply filter_filter_same.
  - rewrite (clearRanCommands_custom (clearRanCommands st)), Hexec.
    rewrite clearRanCommands_custom.
    destruct (execution st) as [e|] eqn:He; [|done].
    set (P := fun l => trim l ∉ commands_of (Some e)).
    set (kept := filter P (split_lines (customCommands st))).
    destruct (decide (kept = [])) as [Hnil|Hkept].
    + rewrite Hnil. cbn [join_lines split_lines].
      rewrite filter_cons, filter_nil. by destruct (decide (P [])).
    + rewrite split_join_lines; [|done|].
      * unfold kept. by rewrite filter_filter_same.
      * apply Forall_forall. intros l Hl.
        eapply elem_of_sublist in Hl; [|apply sublist_filter].
        revert l Hl. apply Forall_forall, split_lines_no_LF.
Qed.

End ClearFacts.

(** ** The dashboard: ages *)

Section DashboardFacts.
Import Dashboard.
Local Open Scope Z_scope.

(** X18.  [formatTimeAgo] never overstates an age and is never a whole
    unit short of it: under a minute, a time in the future included, it
    says "Just now"; after that it names the whole minutes up to 59,
    then the whole hours up to 23, then the whole days. *)
Theorem time_ago_rounds_down now time :
  let age := now - time in
  (age < 60000 -> formatTimeAgo now time = str "Just now")
  /\ (60000 <= age < 3600000 ->
      exists m,
        formatTimeAgo now time = Number_toString m ++ str "m ago"
        /\ 1 <= m <= 59 /\ 60000 * m <= age < 60000 * (m + 1))
  /\ (3600000 <= age < 86400000 ->
      exists h,
        formatTimeAgo now time = Number_toString h ++ str "h ago"
        /\ 1 <= h <= 23 /\ 3600000 * h <= age < 3600000 * (h + 1))
  /\ (86400000 <= age ->
      exists d,
        formatTimeAgo now time = Number_toString d ++ str "d ago"
        /\ 1 <= d /\ 86400000 * d <= age < 86400000 * (d + 1)).
Proof.
  intros age. unfold formatTimeAgo. fold age.
  change (1000 * 60) with 60000.
  set (m := age / 60000). set (h := m / 60). set (d := h / 24).
  assert (Hm : 60000 * m <= age < 60000 * (m + 1)).
  { pose proof (Z.div_mod age 60000 ltac:(lia)).
    pose proof (Z.mod_pos_bound age 60000 ltac:(lia)). subst m. lia. }
  assert (Hh : 60 * h <= m < 60 * (h + 1)).
  { pose proof (Z.div_mod m 60 ltac:(lia)).
    pose proof (Z.mod_pos_bound m 60 ltac:(lia)). subst h. lia. }
  assert (Hd : 24 * d <= h < 24 * (d + 1)).
  { pose proof (Z.div_mod h 24 ltac:(lia)).
    pose proof (Z.mod_pos_bound h 24 ltac:(lia)). subst d. lia. }
  repeat split.
  - intros Hage. destruct (Z.ltb_spec m 1); [done|lia].
  - destruct (Z.ltb_spec m 1); [lia|].
    destruct (Z.ltb_spec m 60); [|lia]. exists m. repeat split; lia.
  - destruct (Z.ltb_spec m 1); [lia|].
    destruct (Z.ltb_spec m 60); [lia|].
    destruct (Z.ltb_spec h 24); [|lia]. exists h. repeat split; lia.
  - destruct (Z.ltb_spec m 1); [lia|].
    destruct (Z.ltb_spec m 60); [lia|].
    destruct (Z.ltb_spec h 24); [lia|]. exists d. repeat split; lia.
Qed.

End DashboardFacts.

(** ** The terminal view: sending the screen to the assistant *)

Section ScreenFacts.
Import TerminalContent.

Lemma trimStart_nil s : trimStart s = [] <-> forallb is_space s = true.
Proof.
  induction s as [|c s IH]; cbn; [done|].
  destruct (is_space c); cbn; [done|]. split; done.
Qed.

Lemma trimStart_head s c : head (trimStart s) = Some c -> is_space c = false.
Proof.
  induction s as [|x s IH]; cbn; [done|].
  destruct (is_space x) eqn:Hx; [done|]. cbn. by intros [= <-].
Qed.

Lemma forallb_reverse {A} (f : A -> bool) l :
  forallb f (reverse l) = forallb f l.
Proof.
  induction l as [|x l IH]; [done|].
  rewrite reverse_cons, forallb_app, IH. cbn.
  rewrite andb_true_r. apply andb_comm.
Qed.

Lemma trim_nil s : trim s = [] <-> forallb is_space s = true.
Proof.
  unfold trim, trimEnd. rewrite <- trimStart_nil.
  split.
  - intros H. apply (f_equal reverse) in H.
    rewrite reverse_involutive in H. cbn in H.
    apply trimStart_nil in H. rewrite forallb_reverse in H.
    destruct (trimStart s) as [|c t] eqn:E; [done|].
    pose proof (trimStart_head s c) as Hc. rewrite E in Hc.
    specialize (Hc eq_refl). cbn in H. by rewrite Hc in H.
  - by intros ->.
Qed.

Lemma trim_ends s :
  (forall c, head (trim s) = Some c -> is_space c = false)
  /\ (forall c, last (trim s) = Some c -> is_space c = false).
Proof.
  split; intros c.
  - unfold trim, trimEnd. set (t := trimStart s).
    destruct (trimStart_suffix (reverse t)) as [before Hr].
    assert (Ht : t = reverse (trimStart (reverse t)) ++ reverse before).
    { rewrite <- reverse_app, <- Hr. by rewrite reverse_involutive. }
    intros Hc.
    assert (Hhead : head t = Some c).
    { rewrite Ht, head_app. by rewrite Hc. }
    by apply (trimStart_head s).
  - unfold trim, trimEnd. rewrite last_reverse. apply trimStart_head.
Qed.

Lemma screen_text buffer : forall content,
  forallb is_space
    (fold_left
       (fun content line =>
          match line with
          | Some text => content ++ text ++ [LF]
          | None => content
          end)
       buffer content)
  = forallb is_space content
    && forallb
         (fun line =>
            match line with
            | Some text => forallb is_space text
            | None => true
            end)
         buffer.
Proof.
  induction buffer as [|line buffer IH]; intros content; cbn [fold_left forallb].
  - by rewrite andb_true_r.
  - rewrite IH. destruct line as [text|]; [|done].
    rewrite !forallb_app. cbn. rewrite andb_true_r. by rewrite andb_assoc.
Qed.

(** X19.  Send to AI refuses a screen that shows nothing but blanks,
    with an alert, and copies anything else: what goes to the clipboard
    is a fixed heading followed by the screen's text, which is not empty
    and neither begins nor ends with a blank or a line break. *)
Theorem send_to_ai_needs_visible_text buffer :
  let blank :=
    forallb
      (fun line =>
         match line with
         | Some text => forallb is_space text
         | None => true
         end)
      buffer in
  (blank = true -> sendToAI buffer = Alert (str "No terminal content to send"))
  /\ (blank = false ->
      sendToAI buffer
      = ClipboardWrite
          (str "Terminal Context:" ++ [LF; LF] ++ getTerminalContent buffer)
      /\ getTerminalContent buffer <> []
      /\ (forall c, head (getTerminalContent buffer) = Some c ->
                    is_space c = false)
      /\ (forall c, last (getTerminalContent buffer) = Some c ->
                    is_space c = false)).
Proof.
  intros blank.
  assert (Hblank : getTerminalContent buffer = [] <-> blank = true).
  { unfold getTerminalContent. rewrite trim_nil, screen_text. done. }
  split.
  - intros H. apply Hblank in H. unfold sendToAI. by rewrite H.
  - intros H.
    assert (Hne : getTerminalContent buffer <> []).
    { intros Hnil. apply Hblank in Hnil. congruence. }
    split; [|split; [done|]].
    + unfold sendToAI. by destruct (getTerminalContent buffer).
    + unfold getTerminalContent. apply trim_ends.
Qed.

End ScreenFacts.

(** ** The terminal view: the size the server knows *)

Section SizeFacts.
Import TerminalView TerminalContent.

Lemma size_reported_step st ev :
  keeps_size_reported st ev -> size_reported st -> size_reported (step st ev).
Proof.
  intros Hev Hst. unfold step.
  assert (Hresize : forall c r st0,
             size_reported
               (if bool_decide (readyState (term_resize c r st0) = OPEN)
                then ws_send
                       (resize_message (cols (term_resize c r st0))
                          (rows (term_resize c r st0)))
                       (term_resize c r st0)
                else term_resize c r st0)).
  { intros c r st0. case_bool_decide as Hopen.
    - intros _. by exists (sent st0), [].
    - intros Hopen'. by destruct Hopen. }
  assert (Hinput : forall data,
             size_reported
               (if bool_decide (readyState st = OPEN)
                then ws_send (input_message data) st else st)).
  { intros data. case_bool_decide as Hopen; [|done].
    intros _. destruct (Hst Hopen) as (before & inputs & Hsent).
    exists before, (inputs ++ [data]). cbn. rewrite Hsent, fmap_app.
    by rewrite <- app_assoc. }
  destruct ev as [rendered fit|fit|data| | |data|fit|fit|command| ];
    cbn [browser handler].
  - unfold waitForRender. destruct rendered; [|exact Hst].
    destruct fit as [c r|]; [|exact Hst].
    intros Hopen. destruct (Hev Hopen) as [-> ->]. by apply Hst.
  - destruct fit as [c r|]; [|done]. apply Hresize.
  - exact Hst.
  - by intros ?.
  - exact Hst.
  - apply Hinput.
  - destruct fit as [c r|]; [apply Hresize | exact Hst].
  - destruct fit as [c r|]; [apply Hresize | exact Hst].
  - apply Hinput.
  - destruct (readyState st) eqn:E; intros Hopen; cbn in Hopen; congruence.
Qed.

(** X20.  The server knows the terminal's size at every moment the
    socket is open, the last resize frame sent carrying the numbers of
    columns and rows the terminal has and only input frames following
    it, as long as two things hold: the terminal could be fitted
    whenever the socket opened, and the fit [waitForRender] makes once
    the terminal is laid out does not change the size while the socket
    is open.  That fit sends no resize frame. *)
Theorem size_reported_while_open evs st :
  size_kept evs st -> size_reported st ->
  size_reported (run evs st).
Proof.
  revert st. induction evs as [|ev evs IH]; intros st Hevs Hst; [done|].
  destruct Hevs as [Hev Hevs].
  change (run (ev :: evs) st) with (run evs (step st ev)).
  by apply IH, size_reported_step.
Qed.

Lemma size_reported_while_open_witness :
  size_reported
    (run [RenderTimer false FitThrows; RenderTimer true (FitOk 100 30);
          WsOpen (FitOk 100 30); TermData (str "ls"); WindowResize FitThrows;
          LayoutChange (FitOk 120 40); ChatCommand (str "show clock")]
       (init 80 24)).
Proof.
  apply (size_reported_while_open
           [RenderTimer false FitThrows; RenderTimer true (FitOk 100 30);
            WsOpen (FitOk 100 30); TermData (str "ls"); WindowResize FitThrows;
            LayoutChange (FitOk 120 40); ChatCommand (str "show clock")]
           (init 80 24)).
  - cbn. repeat split; done.
  - intros Hopen. discriminate Hopen.
Defined.

(** When [waitForRender] fits the terminal to another size with the
    socket already open, the server is left with the old one. *)
Example render_fit_not_reported :
  let st := run [WsOpen (FitOk 80 24); RenderTimer true (FitOk 100 30)]
              (init 80 24) in
  readyState st = OPEN
  /\ sent st = [resize_message 80 24]
  /\ (cols st, rows st) = (100, 30)%Z.
Proof. by vm_compute. Qed.

End SizeFacts.

(** ** The command executor: other messages *)

Section OtherMessageFacts.
Import Executor ExecutorPanel.

Lemma not_known_type t :
  t ∉ known_types ->
  is_str t "execution_started" = false
  /\ is_str t "execution_progress" = false
  /\ is_str t "execution_completed" = false
  /\ is_str t "execution_failed" = false.
Proof.
  intros Ht. unfold known_types in Ht.
  rewrite !not_elem_of_cons in Ht. destruct Ht as (H1 & H2 & H3 & H4 & _).
  repeat split; apply not_true_is_false; by rewrite is_str_true.
Qed.

(** X21.  A message of a type the handler does not know changes nothing
    but the console, whatever else it carries, be it not even an object;
    on [null] the handler throws before it has done anything. *)
Theorem unknown_message_ignored data st :
  member data "type" ∉ known_types ->
  handleWebSocketMessage data st
  = match data with
    | JNull | JUndefined => Throw (str "TypeError")
    | _ => Normal (perform (ConsoleLog (str "Unknown WebSocket message:")) st)
    end
  /\ selectedCommands (after_message data st) = selectedCommands st
  /\ customCommands (after_message data st) = customCommands st
  /\ execution (after_message data st) = execution st
  /\ isExecuting (after_message data st) = isExecuting st
  /\ liveOutputs (after_message data st) = liveOutputs st
  /\ requests_of (log (after_message data st)) = requests_of (log st).
Proof.
  intros Htype. destruct (not_known_type _ Htype) as (H1 & H2 & H3 & H4).
  assert (Hrun : handleWebSocketMessage data st
    = match data with
      | JNull | JUndefined => Throw (str "TypeError")
      | _ => Normal (perform (ConsoleLog (str "Unknown WebSocket message:")) st)
      end).
  { unfold handleWebSocketMessage.
    destruct data; try done; unfold get; by rewrite H1, H2, H3, H4. }
  split; [exact Hrun|]. unfold after_message. rewrite Hrun.
  destruct data; repeat split; try done;
    change (log (perform ?e ?s)) with (log s ++ [e]);
    rewrite requests_of_app; cbn; by rewrite app_nil_r.
Qed.

Lemma unknown_message_ignored_witness :
  after_message (JObj [(str "type", JStr (str "pong"))]) Samples.planned
  = perform (ConsoleLog (str "Unknown WebSocket message:")) Samples.planned.
Proof.
  destruct (unknown_message_ignored
              (JObj [(str "type", JStr (str "pong"))]) Samples.planned)
    as [Hrun _].
  - unfold known_types. rewrite !not_elem_of_cons.
    repeat split; try (by vm_compute). by intros ?%elem_of_nil.
  - unfold after_message. by rewrite Hrun.
Defined.

(** X22.  When an execution completes the user is told, the executing
    flag is cleared, and, the message naming the execution, its snapshot
    is requested; once that request has settled the history is reloaded,
    whether the snapshot came or not, and the snapshot, if it came, is
    the execution on show.  A message that names no execution has the
    history reloaded at once. *)
Theorem completed_execution_fetched data st :
  member data "type" = JStr (str "execution_completed") ->
  data <> JNull -> data <> JUndefined ->
  let id := member data "execution_id" in
  let st1 := after_message data st in
  isExecuting st1 = false
  /\ (truthy id = true ->
      log st1
      = log st ++ [Toast success (str "Commands executed successfully");
                   Http (GetExecution (ToString id))]
      /\ forall r,
           log (completedFetchSettled r st1)
           = log st1
             ++ match r with
                | Some _ => []
                | None =>
                    [ConsoleError (str "Failed to fetch completed execution")]
                end
             ++ [Http GetExecutions]
           /\ execution (completedFetchSettled r st1)
              = match r with Some e => Some e | None => execution st end
           /\ isExecuting (completedFetchSettled r st1) = false)
  /\ (truthy id = false ->
      log st1
      = log st ++ [Toast success (str "Commands executed successfully");
                   Http GetExecutions]).
Proof.
  intros Htype Hnull Hundef id st1.
  destruct message_types_differ as (_ & H2 & _ & H4 & _ & H6 & _).
  assert (Hrun : st1
    = let st0 :=
        setIsExecuting false
          (perform (Toast success (str "Commands executed successfully")) st)
      in if truthy id
         then perform (Http (GetExecution (ToString id))) st0
         else loadExecutionHistory st0).
  { subst st1. unfold after_message, handleWebSocketMessage.
    assert (Hget : get data "type" = Normal (member data "type"))
      by by destruct data.
    rewrite Hget, Htype.
    rewrite (is_str_other "execution_completed" "execution_started"),
      (is_str_other "execution_completed" "execution_progress")
      by congruence.
    replace (is_str (JStr (str "execution_completed")) "execution_completed")
      with true by (symmetry; by apply is_str_true).
    done. }
  rewrite Hrun. cbv zeta. destruct (truthy id).
  - split; [done|]. split; [|done]. intros _. split.
    + cbn. by rewrite <- app_assoc.
    + intros [e|]; cbn; by rewrite <- ?app_assoc.
  - split; [done|]. split; [done|]. intros _. cbn. by rewrite <- app_assoc.
Qed.

Lemma completed_execution_fetched_witness :
  execution
    (completedFetchSettled (Some Samples.ran_version)
       (after_message
          (JObj [(str "type", JStr (str "execution_completed"));
                 (str "execution_id", JStr (str "e1"))])
          Samples.planned))
  = Some Samples.ran_version.
Proof.
  destruct (completed_execution_fetched
    (JObj [(str "type", JStr (str "execution_completed"));
           (str "execution_id", JStr (str "e1"))])
    Samples.planned eq_refl) as (_ & Hid & _); [done|done|].
  destruct Hid as [_ Hsettled]; [reflexivity|].
  by destruct (Hsettled (Some Samples.ran_version)) as (_ & Hexec & _).
Defined.

End OtherMessageFacts.

(** ** The AI chat: replies without commands *)

Section ProseFacts.
Import AIChat.






End ProseFacts.
